(** * movie-picker: the store and the page handlers (src/db.ts and the
      page script that imports it) and the NFO ingestion script (gen-tv.ts
      and its twin for movies)

    A shallow embedding of the dual-catalog variant of the picker and of the
    ingestion script, with the properties of the written specification stated
    over it.

    Conventions of the embedding
    - A JavaScript string is the [string] of its code units, which are
      taken to lie below 256: the characters U+0000 to U+00FF, in which the
      code units 128 to 255 are the Latin-1 letters and signs of the same
      number. A [number] that the code only
      subtracts and compares is an exact rational ([Q]) or an integer ([Z]):
      on finite doubles the sign of the IEEE difference is the sign of the
      exact one. [NaN] is kept as a value of its own where the code can
      produce it.
    - A Dexie table is the rows it holds, and every store operation succeeds.
    - The browser and the libraries (Fuse, the locale's collation, fetch, the
      XML parser) are parameters of the functions that call them.
    - An [async] function is the function of its sequential run. *)

From Stdlib Require Import ZArith QArith String Ascii List Sorting Permutation Lia.
From stdpp Require Import base list strings gmap pretty.

Local Open Scope Z_scope.
Set Warnings "-register-all".

(* ===================================================================== *)
(** * Part I. The embedding *)
(* ===================================================================== *)

(** ** JavaScript primitives used by the sources *)

Module JS.

(** The value of a comparator: a number, possibly [NaN]. *)
Inductive number : Type :=
| NaN : number
| Num (q : Q) : number.

Definition ofZ (z : Z) : number := Num (inject_Z z).

(** [a - b] on two operands that may be [undefined]: [undefined] converts to
    [NaN], and [NaN] is absorbing. *)
Definition sub (a b : option Q) : number :=
  match a, b with
  | Some x, Some y => Num (x - y)
  | _, _ => NaN
  end.

(** The test [v > 0] that [Array.prototype.sort] makes on the value of the
    comparator, after replacing [NaN] by [+0]. *)
Definition positive (v : number) : bool :=
  match v with
  | NaN => false
  | Num q => negb (Qle_bool q 0)
  end.

Section sort.
Context {A : Type} (comparefn : A -> A -> number).

(** [x] goes in front of the first element it is not greater than, so equal
    elements keep their order. *)
Fixpoint insert (x : A) (l : list A) : list A :=
  match l with
  | [] => [x]
  | y :: l' => if positive (comparefn x y) then y :: insert x l' else x :: l
  end.

(** [Array.prototype.sort(comparefn)]. The language fixes the result for a
    consistent comparator: the stable sorted arrangement, which is what this
    insertion sort computes. *)
Definition sort (l : list A) : list A := foldr insert [] l.

(** [a] may stand before [b]. *)
Definition before (a b : A) : Prop := positive (comparefn a b) = false.

End sort.

(** The line feed of ["\n"]. *)
Definition nl : string := String (ascii_of_nat 10) EmptyString.


(** A string in a boolean position: only the empty string is falsy. *)
Definition truthy (s : string) : bool := negb (String.eqb s "").

(** [String.prototype.toLowerCase] on a code unit below 256: the letters
    A-Z, and the capital letters U+00C0 to U+00DE, among which U+00D7 is the
    multiplication sign and stays. *)
Definition lowerChar (c : ascii) : ascii :=
  let n := nat_of_ascii c in
  if ((65 <=? n) && (n <=? 90))%nat then ascii_of_nat (n + 32)
  else if ((192 <=? n) && (n <=? 222) && negb (n =? 215))%nat then ascii_of_nat (n + 32)
  else c.

Fixpoint toLowerCase (s : string) : string :=
  match s with
  | EmptyString => EmptyString
  | String c s' => String (lowerChar c) (toLowerCase s')
  end.

(** [s.startsWith(p)]. *)
Definition startsWith (s p : string) : bool := String.prefix p s.

(** Comparison of strings by code units: the order of
    [Array.prototype.sort()] without a comparator, and of the string keys of
    an IndexedDB object store. *)
Definition codeUnitCompare (a b : string) : number :=
  match String.compare a b with
  | Lt => ofZ (-1)
  | Eq => ofZ 0
  | Gt => ofZ 1
  end.

(** An integer inside a template literal. *)
Definition showZ (z : Z) : string := pretty z.

(** The first-occurrence order of [new Set(array)] spread back to an array. *)
Fixpoint setOf (seen : list string) (l : list string) : list string :=
  match l with
  | [] => []
  | x :: l' =>
      if existsb (String.eqb x) seen then setOf seen l'
      else x :: setOf (x :: seen) l'
  end.

End JS.

(** ** Data model (src/db.ts) *)

(** [Movie] and [TvShow] are the same interface twice; one record stands for
    the union [Movie | TvShow]. *)
Module Movie.
Record t : Type := mk {
  id : string;
  title : string;
  year : Z;
  description : string;
  image : option string;
  runtime : Z;
  premiered : string;
  genre : list string;
  tag : option (list string);
  rating : Q;
  actors : list string
}.
End Movie.

(** A row of the [selected] table; [id] is the auto-incremented key. *)
Module Selected.
Record t : Type := mk {
  id : N;
  refId : string;
  title : string;
  year : Z
}.
End Selected.

(** What [fuse.search] returns, and what [filterContent] builds for an empty
    query (without a [score]). *)
Module FuseResult.
Record t : Type := mk {
  item : Movie.t;
  refIndex : nat;
  score : option Q
}.
End FuseResult.

(** What the page gets from outside its own sources. *)
Class Env : Type := {
  (** [a.localeCompare(b)] in the locale of the page *)
  localeCompare : string -> string -> Z;
  (** [new Fuse(content, fuseOptions).search] *)
  fuseSearch : list Movie.t -> string -> list FuseResult.t;
  (** the bundled [movies.json] and [tv-shows.json] *)
  movieList : list Movie.t;
  tvShowList : list Movie.t
}.

(** ** The Dexie tables *)

Module Dexie.

(** A table with the string primary key [id]: [movies] and [tvShows]. *)
Definition bulkPut (items : list Movie.t) (t : gmap string Movie.t) : gmap string Movie.t :=
  foldl (fun m it => <[Movie.id it := it]> m) t items.

Definition count (t : gmap string Movie.t) : nat := size t.

(** Rows come back in the order of their keys. *)
Definition toArray (t : gmap string Movie.t) : list Movie.t :=
  map snd (JS.sort (fun a b => JS.codeUnitCompare (fst a) (fst b)) (map_to_list t)).

(** The table [selected: "++id, refId, title, year"]: rows in key order, and
    the key generator. *)
Record AutoTable : Type := mkAuto {
  rows : list Selected.t;
  nextKey : N
}.

Definition emptyAuto : AutoTable := mkAuto [] 1.

Definition toArrayAuto (t : AutoTable) : list Selected.t := rows t.

Definition add (refId title : string) (year : Z) (t : AutoTable) : AutoTable :=
  mkAuto (rows t ++ [Selected.mk (nextKey t) refId title year]) (nextKey t + 1).

(** [where("refId").equals(key).delete()] *)
Definition deleteWhereRefId (key : string) (t : AutoTable) : AutoTable :=
  mkAuto (List.filter (fun r => negb (String.eqb (Selected.refId r) key)) (rows t)) (nextKey t).

(** [clear()] empties the store and leaves the key generator alone. *)
Definition clear (t : AutoTable) : AutoTable := mkAuto [] (nextKey t).

Record Db : Type := mkDb {
  movies : gmap string Movie.t;
  tvShows : gmap string Movie.t;
  selected : AutoTable
}.

Definition emptyDb : Db := mkDb ∅ ∅ emptyAuto.

End Dexie.

(** ** The page *)

Module Dom.

(** Element trees as far as the sources read them back. *)
Inductive node : Type :=
| Text (s : string) : node
| Elem (tagName : string) (elemId : string) (children : list node) : node.


(** The descendants-or-self with a given tag, in document order. *)
Fixpoint byTag (t : string) (n : node) : list node :=
  match n with
  | Text _ => []
  | Elem tg _ cs =>
      (if String.eqb tg t then [n] else []) ++ flat_map (byTag t) cs
  end.

(** [querySelectorAll("#box tag")], given the children of the box. *)
Definition querySelectorAllIn (box : list node) (t : string) : list node :=
  flat_map (byTag t) box.

(** A [select] element: its options as (value, text), and the index of the
    selected one. *)
Record Select : Type := mkSelect {
  options : list (string * string);
  selectedIndex : nat
}.

Definition value (s : Select) : string :=
  match options s !! selectedIndex s with
  | Some o => fst o
  | None => ""
  end.

(** A card of the grid: the item its click handler closes over, and whether
    it carries the class [selected]. *)
Record Card : Type := mkCard {
  cardItem : Movie.t;
  cardSelected : bool
}.

Record Page : Type := mkPage {
  searchInput : string;
  genreFilter : Select;
  sortOptions : Select;
  contentGrid : list Card;
  resultCount : string;
  selectedBox : list node;
  selectedBoxShow : bool
}.

End Dom.

(** The state the handlers of the page act on. *)
Record World : Type := mkWorld {
  db : Dexie.Db;
  page : Dom.Page;
  clipboard : string;
  console : list string
}.

Module Upd.
Import Dexie Dom.

Definition setSelected (t : AutoTable) (w : World) : World :=
  mkWorld (mkDb (movies (db w)) (tvShows (db w)) t) (page w) (clipboard w) (console w).

Definition setCatalogs (m tv : gmap string Movie.t) (w : World) : World :=
  mkWorld (mkDb m tv (selected (db w))) (page w) (clipboard w) (console w).

Definition setPage (p : Page) (w : World) : World :=
  mkWorld (db w) p (clipboard w) (console w).


Definition log (s : string) (w : World) : World :=
  mkWorld (db w) (page w) (clipboard w) (console w ++ [s]).

Definition setSearchInput (s : string) (p : Page) : Page :=
  mkPage s (genreFilter p) (sortOptions p) (contentGrid p) (resultCount p)
    (selectedBox p) (selectedBoxShow p).

Definition setGenreFilter (s : Select) (p : Page) : Page :=
  mkPage (searchInput p) s (sortOptions p) (contentGrid p) (resultCount p)
    (selectedBox p) (selectedBoxShow p).

Definition setSortOptions (s : Select) (p : Page) : Page :=
  mkPage (searchInput p) (genreFilter p) s (contentGrid p) (resultCount p)
    (selectedBox p) (selectedBoxShow p).

Definition setContentGrid (g : list Card) (p : Page) : Page :=
  mkPage (searchInput p) (genreFilter p) (sortOptions p) g (resultCount p)
    (selectedBox p) (selectedBoxShow p).

Definition setResultCount (s : string) (p : Page) : Page :=
  mkPage (searchInput p) (genreFilter p) (sortOptions p) (contentGrid p) s
    (selectedBox p) (selectedBoxShow p).

Definition setSelectedBox (b : list node) (p : Page) : Page :=
  mkPage (searchInput p) (genreFilter p) (sortOptions p) (contentGrid p)
    (resultCount p) b (selectedBoxShow p).

Definition setSelectedBoxShow (b : bool) (p : Page) : Page :=
  mkPage (searchInput p) (genreFilter p) (sortOptions p) (contentGrid p)
    (resultCount p) (selectedBox p) b.

End Upd.

(** ** What the HTML parser reads from a run of text

    A string assigned through [innerHTML] is parsed. For a run of text
    inside an element the parser copies the characters, except that an
    ampersand may start a character reference and a [<] starts a tag.
    [textOf] is the text read from a run without tags, in which an
    ampersand either starts one of the references [&amp;], [&lt;], [&gt;]
    or is followed by a character that is no letter, no digit and no [#]
    (and so stays an ampersand); [readable] says that a run is of that kind
    and holds neither U+0000, which the parser drops, nor a carriage
    return, which it turns into a line feed. *)

Module Html.


(** The name at the head of [s], after an ampersand: its length with the
    semicolon, and the character the reference stands for. *)
Definition reference (s : string) : option (nat * ascii) :=
  if String.prefix "amp;" s then Some (4%nat, "&"%char)
  else if String.prefix "lt;" s then Some (3%nat, "<"%char)
  else if String.prefix "gt;" s then Some (3%nat, ">"%char)
  else None.


(** [skip] counts the characters of a reference still to pass over. *)
Fixpoint textFrom (skip : nat) (s : string) : string :=
  match s with
  | EmptyString => EmptyString
  | String c s' =>
      match skip with
      | S k => textFrom k s'
      | O =>
          if Ascii.eqb c "&" then
            match reference s' with
            | Some (n, d) => String d (textFrom n s')
            | None => String c (textFrom 0 s')
            end
          else String c (textFrom 0 s')
      end
  end.

Definition textOf (s : string) : string := textFrom 0 s.





End Html.

(** ** The handlers of the page (dual-catalog variant: the script that
       imports [Movie], [TvShow], [Selected], [db] and [seedDatabase]) *)

Module App.
Import Dexie Dom Upd.

Section app.
Context `{E : Env}.

(** [seedDatabase] of src/db.ts. *)
Definition seedDatabase (w : World) : World :=
  log "Database seeded successfully"
    (setCatalogs (bulkPut movieList (movies (db w)))
                 (bulkPut tvShowList (tvShows (db w))) w).

Definition initializeDatabase (w : World) : World :=
  if (count (movies (db w)) =? 0)%nat then seedDatabase w else w.

(** The markup interpolated into one [<li>]. *)
Definition liText (c : Selected.t) : string :=
  Selected.title c +:+ " (" +:+ JS.showZ (Selected.year c) +:+ ")".

(** The box is assigned through [innerHTML]: each item gets as its child
    the text that the parser reads from its markup, which is [Html.textOf]
    of it when the markup is [Html.readable]. The template's white space
    between the tags, which lies outside every [li], is left out of the
    tree. *)
Definition updateSelectedBox (selectedContent : list Selected.t) (w : World) : World :=
  let isSelectedContent := (0 <? length selectedContent)%nat in
  let box :=
    if isSelectedContent then
      [ Elem "div" ""
          [ Elem "h3" "" [Text "Selected"];
            Elem "button" "copy-btn" [Elem "svg" "" [Elem "path" "" []]] ];
        Elem "ul" ""
          (map (fun content => Elem "li" "" [Text (Html.textOf (liText content))])
             selectedContent) ]
    else [ Elem "h3" "" [Text "Nothing selected"] ] in
  setPage (setSelectedBox box (page w)) w.

(** [selectedContent.some((selectedItem) => selectedItem.refId === contentId)] *)
Definition someRefId (selectedContent : list Selected.t) (contentId : string) : bool :=
  existsb (fun selectedItem => String.eqb (Selected.refId selectedItem) contentId) selectedContent.

Definition createContentCard (selectedContent : list Selected.t) (content : Movie.t) : Card :=
  mkCard content (someRefId selectedContent (Movie.id content)).

Definition displayContent (content : list Movie.t) (selectedContent : list Selected.t)
    (w : World) : World :=
  let w1 := setPage (setContentGrid (map (createContentCard selectedContent) content) (page w)) w in
  let w2 := updateSelectedBox selectedContent w1 in
  setPage (setResultCount ("Showing " +:+ pretty (length content) +:+ " results") (page w2)) w2.

(** [contentCard.classList.add/remove("selected")] on the card at a position
    of the grid. *)
Definition setCardClass (contentCard : nat) (b : bool) (p : Page) : Page :=
  setContentGrid (alter (fun c => mkCard (cardItem c) b) contentCard (contentGrid p)) p.

Definition toggleContentSelection (contentCard : nat) (contentId contentTitle : string)
    (contentYear : Z) (w : World) : World :=
  let selectedContent := toArrayAuto (selected (db w)) in
  let isSelected := someRefId selectedContent contentId in
  let w1 :=
    if isSelected then
      setSelected (deleteWhereRefId contentId (selected (db w)))
        (setPage (setCardClass contentCard false (page w)) w)
    else
      setSelected (add contentId contentTitle contentYear (selected (db w)))
        (setPage (setCardClass contentCard true (page w)) w) in
  updateSelectedBox (toArrayAuto (selected (db w1))) w1.

(** The click listener that [createContentCard] puts on a card. *)
Definition clickCard (contentCard : nat) (w : World) : World :=
  match contentGrid (page w) !! contentCard with
  | Some c =>
      toggleContentSelection contentCard (Movie.id (cardItem c))
        (Movie.title (cardItem c)) (Movie.year (cardItem c)) w
  | None => w
  end.

Definition reset (content : list Movie.t) (w : World) : World :=
  let p1 := setContentGrid (map (fun card => mkCard (cardItem card) false) (contentGrid (page w))) (page w) in
  let p2 := setSearchInput "" p1 in
  let p3 := setGenreFilter (mkSelect (options (genreFilter p2)) 0) p2 in
  let p4 := setSortOptions (mkSelect (options (sortOptions p3)) 0) p3 in
  let w1 := setSelected (clear (selected (db w))) (setPage p4 w) in
  displayContent content [] w1.


(** The comparator [(a, b) => a.title.localeCompare(b.title)]. *)
Definition byTitle (a b : Movie.t) : JS.number :=
  JS.ofZ (localeCompare (Movie.title a) (Movie.title b)).

Definition initFuse (content : list Movie.t) : string -> list FuseResult.t :=
  fuseSearch content.

(** [[...new Set(content.flatMap((item) => item.genre))].sort()] *)
Definition genresOf (content : list Movie.t) : list string :=
  JS.sort JS.codeUnitCompare (JS.setOf [] (flat_map Movie.genre content)).

(** The options are replaced, and the first one is the selected one. *)
Definition populateGenres (content : list Movie.t) (w : World) : World :=
  let genres := genresOf content in
  setPage
    (setGenreFilter (mkSelect (("", "All Genres") :: map (fun genre => (genre, genre)) genres) 0)
       (page w)) w.

Record Loaded : Type := mkLoaded {
  loadedMovies : list Movie.t;
  loadedTvShows : list Movie.t;
  movieFuse : string -> list FuseResult.t;
  tvShowFuse : string -> list FuseResult.t
}.

Definition fetchContent (w : World) : Loaded * World :=
  let movies := JS.sort byTitle (toArray (movies (db w))) in
  let tvShows := JS.sort byTitle (toArray (tvShows (db w))) in
  let selectedContent := toArrayAuto (selected (db w)) in
  let w1 := populateGenres movies w in
  let w2 := displayContent movies selectedContent w1 in
  (mkLoaded movies tvShows (initFuse movies) (initFuse tvShows), w2).

(** The comparator inside [sortResults]. *)
Definition sortCompare (sortOption : string) (a b : FuseResult.t) : JS.number :=
  if String.eqb sortOption "search" then
    JS.sub (FuseResult.score a) (FuseResult.score b)
  else if String.eqb sortOption "title" then
    JS.ofZ (localeCompare (Movie.title (FuseResult.item a)) (Movie.title (FuseResult.item b)))
  else if String.eqb sortOption "year" then
    JS.ofZ (Movie.year (FuseResult.item b) - Movie.year (FuseResult.item a))
  else if String.eqb sortOption "rating" then
    JS.Num (Movie.rating (FuseResult.item b) - Movie.rating (FuseResult.item a))
  else JS.ofZ 0.

Definition sortResults (results : list FuseResult.t) (sortOption : string) : list FuseResult.t :=
  JS.sort (sortCompare sortOption) results.

(** [content.map((item, index) => ({ item, refIndex: index }))] *)
Definition wrapAll (content : list Movie.t) : list FuseResult.t :=
  imap (fun index item => FuseResult.mk item index None) content.

(** [result.item.genre.includes(selectedGenre)] *)
Definition hasGenre (selectedGenre : string) (result : FuseResult.t) : bool :=
  existsb (String.eqb selectedGenre) (Movie.genre (FuseResult.item result)).

(** The results after the search and the genre filter, before sorting. *)
Definition matchedResults (content : list Movie.t) (fuse : string -> list FuseResult.t)
    (p : Page) : list FuseResult.t :=
  let searchQuery := JS.toLowerCase (searchInput p) in
  let selectedGenre := value (genreFilter p) in
  let results := if JS.truthy searchQuery then fuse searchQuery else wrapAll content in
  if JS.truthy selectedGenre then List.filter (hasGenre selectedGenre) results else results.

(** [sortedResults] of [filterContent]. *)
Definition sortedResults (content : list Movie.t) (fuse : string -> list FuseResult.t)
    (isSearch : bool) (p : Page) : list FuseResult.t :=
  let sortOption := value (sortOptions p) in
  let sortOptionValue := if isSearch then "search" else sortOption in
  sortResults (matchedResults content fuse p) sortOptionValue.

Definition filterContent (content : list Movie.t) (fuse : string -> list FuseResult.t)
    (isSearch : bool) (w : World) : World :=
  displayContent (map FuseResult.item (sortedResults content fuse isSearch (page w)))
    (toArrayAuto (selected (db w))) w.

Definition toggleShowBookmarked (w : World) : World :=
  setPage (setSelectedBoxShow (negb (selectedBoxShow (page w))) (page w)) w.

End app.
End App.

(** ** The ingestion script (the movie script; gen-tv.ts is the same script
       over the [tvshow] files) *)

Module Ingest.

(** One parsed [.nfo] file ([JsonData.movie]), the numeric fields already
    through [Number(...)]. *)
Record Nfo : Type := mkNfo {
  nfoId : string;
  nfoTitle : string;
  nfoYear : Z;
  nfoPlot : string;
  nfoThumb : string;
  nfoRuntime : Z;
  nfoPremiered : string;
  nfoGenre : list string;
  nfoTag : option (list string);
  nfoRating : Q;
  nfoActor : list string
}.

(** What [await fetch(url)] comes to: a rejection with its message, or a
    response with its [content-type] header and its body. *)
Inductive Fetched : Type :=
| Rejected (message : string) : Fetched
| Response (contentType : option string) (body : string) : Fetched.

(** The files written, the failure log among them, and the error stream. *)
Record Disk : Type := mkDisk {
  files : gmap string string;
  stderr : list string
}.

Definition readOr (path : string) (d : Disk) : string :=
  default "" (files d !! path).

Definition appendFileSync (path data : string) (d : Disk) : Disk :=
  mkDisk (<[path := readOr path d +:+ data]> (files d)) (stderr d).

Definition writeFileSync (path data : string) (d : Disk) : Disk :=
  mkDisk (<[path := data]> (files d)) (stderr d).

Definition consoleError (s : string) (d : Disk) : Disk :=
  mkDisk (files d) (stderr d ++ [s]).

Fixpoint mapChars (f : ascii -> ascii) (s : string) : string :=
  match s with
  | EmptyString => EmptyString
  | String c s' => String (f c) (mapChars f s')
  end.

Fixpoint keepChars (f : ascii -> bool) (s : string) : string :=
  match s with
  | EmptyString => EmptyString
  | String c s' => if f c then String c (keepChars f s') else keepChars f s'
  end.

Definition between (lo hi : nat) (c : ascii) : bool :=
  ((lo <=? nat_of_ascii c) && (nat_of_ascii c <=? hi))%nat.

(** [\w] *)
Definition isWord (c : ascii) : bool :=
  between 48 57 c || between 65 90 c || between 97 122 c || Ascii.eqb c "_".

(** [\s] on a code unit below 256: tab, line feed, vertical tab, form feed,
    carriage return, space and the no-break space U+00A0. *)
Definition isSpace (c : ascii) : bool :=
  between 9 13 c || Ascii.eqb c " " || (nat_of_ascii c =? 160)%nat.

(** [c.normalize("NFD").replace(/[\u0300-\u036f]/g, "")] on one code unit
    below 256: the letters of U+00C0 to U+00FF that have a canonical
    decomposition decompose into a letter of A-Z or a-z and one combining
    mark of U+0300 to U+036F, which the replacement removes; every other
    code unit below 256 is its own decomposition. *)
Definition baseLetter (c : ascii) : ascii :=
  let n := nat_of_ascii c in
  if between 192 197 c then "A"%char
  else if (n =? 199)%nat then "C"%char
  else if between 200 203 c then "E"%char
  else if between 204 207 c then "I"%char
  else if (n =? 209)%nat then "N"%char
  else if between 210 214 c then "O"%char
  else if between 217 220 c then "U"%char
  else if (n =? 221)%nat then "Y"%char
  else if between 224 229 c then "a"%char
  else if (n =? 231)%nat then "c"%char
  else if between 232 235 c then "e"%char
  else if between 236 239 c then "i"%char
  else if (n =? 241)%nat then "n"%char
  else if between 242 246 c then "o"%char
  else if between 249 252 c then "u"%char
  else if (n =? 253)%nat || (n =? 255)%nat then "y"%char
  else c.

Definition sanitizeTitle (title : string) : string :=
  let normalizedTitle := mapChars baseLetter title in
  let replacedTitle :=
    mapChars (fun c => if Ascii.eqb c "/" || Ascii.eqb c ":" then "-"%char else c) normalizedTitle in
  let sanitizedTitle :=
    keepChars (fun c => isWord c || isSpace c || Ascii.eqb c "-" || Ascii.eqb c "_") replacedTitle in
  sanitizedTitle.

(** [s.replace(pattern, replacement)] with a string pattern: the first
    occurrence only. *)
Fixpoint replaceFirst (pattern replacement s : string) : string :=
  if String.prefix pattern s then
    replacement +:+ String.substring (String.length pattern) (String.length s - String.length pattern) s
  else
    match s with
    | EmptyString => EmptyString
    | String c s' => String c (replaceFirst pattern replacement s')
    end.

Definition replaceImageUrl (url : string) : string :=
  replaceFirst "/original/" "/w220_and_h330_face/" url.

(** [s.endsWith(suffix)] *)
Definition endsWith (s suffix : string) : bool :=
  (String.length suffix <=? String.length s)%nat &&
  String.eqb (String.substring (String.length s - String.length suffix) (String.length suffix) s) suffix.

(** [path.join] of segments that need no normalising. *)
Definition pathJoin (segments : list string) : string := String.concat "/" segments.

(** A nullable string inside a template literal. *)
Definition showNullable (s : option string) : string := default "null" s.

(** The declared content type names an image format. *)
Definition imageDeclared (contentType : option string) : bool :=
  match contentType with
  | None => false
  | Some ct => JS.startsWith ct "image/"
  end.

(** The declared content type starts with ["image/jpeg"]. *)
Definition jpegDeclared (contentType : option string) : bool :=
  match contentType with
  | None => false
  | Some ct => JS.startsWith ct "image/jpeg"
  end.

Section script.
(** The directory of the script, the network, and the [.nfo] directory as
    file names with the parse of their contents. *)
Context (dirname : string) (fetch : string -> Fetched).

Definition logFilePath : string := pathJoin [dirname; "failed_downloads.txt"].

Definition logFailedDownload (title : string) (year : Z) (errorMessage : string) (d : Disk) : Disk :=
  let logMessage := title +:+ " (" +:+ JS.showZ year +:+ ") - " +:+ errorMessage +:+ ")" +:+ JS.nl in
  appendFileSync logFilePath logMessage d.

(** The [catch] branch of [downloadImage]. *)
Definition failed (title : string) (year : Z) (message : string) (d : Disk) : Disk :=
  logFailedDownload title year message
    (consoleError ("ERROR: " +:+ title +:+ " (" +:+ JS.showZ year +:+ ") - " +:+ message) d).

(** [!contentType || !contentType.startsWith("image/jpeg")] *)
Definition refused (contentType : option string) : bool :=
  match contentType with
  | None => true
  | Some ct => negb (JS.truthy ct) || negb (JS.startsWith ct "image/jpeg")
  end.

Definition downloadImage (url outputPath title : string) (year : Z) (d : Disk) : Disk :=
  match fetch url with
  | Rejected message => failed title year message d
  | Response contentType body =>
      if refused contentType then
        failed title year
          ("Content is not an image. Content-Type: " +:+ showNullable contentType) d
      else writeFileSync outputPath body d
  end.

Definition imageNameOf (n : Nfo) : string :=
  sanitizeTitle (nfoTitle n) +:+ " (" +:+ JS.showZ (nfoYear n) +:+ ").jpg".

(** The body of the loop of [processNfoFiles] for one file. *)
Definition processOne (acc : list Movie.t * Disk) (n : Nfo) : list Movie.t * Disk :=
  let title := nfoTitle n in
  let safeTitle := sanitizeTitle title in
  let year := nfoYear n in
  let imageName := imageNameOf n in
  let imagePath := pathJoin [dirname; "public"; "images"; "movies"; imageName] in
  let imageUrl := replaceImageUrl (nfoThumb n) in
  let d := downloadImage imageUrl imagePath safeTitle year (snd acc) in
  let movieData :=
    Movie.mk (nfoId n) title year (nfoPlot n) (Some ("/images/movies/" +:+ imageName))
      (nfoRuntime n) (nfoPremiered n) (nfoGenre n) (nfoTag n) (nfoRating n) (nfoActor n) in
  (fst acc ++ [movieData], d).

(** [processNfoFiles]: the array [movies] that is written to the catalog
    file, and the disk as the downloads leave it. *)
Definition processNfoFiles (dir : list (string * Nfo)) (d : Disk) : list Movie.t * Disk :=
  let nfoFiles := List.filter (fun f => endsWith (fst f) ".nfo") dir in
  foldl processOne ([], d) (map snd nfoFiles).

(** The message of the error that [downloadImage] catches for a file, when
    there is one. *)
Definition failureOf (n : Nfo) : option string :=
  match fetch (replaceImageUrl (nfoThumb n)) with
  | Rejected message => Some message
  | Response contentType _ =>
      if refused contentType
      then Some ("Content is not an image. Content-Type: " +:+ showNullable contentType)
      else None
  end.

(** A line of the failure log under a given title. *)
Definition logLine (title : string) (year : Z) (message : string) : string :=
  title +:+ " (" +:+ JS.showZ year +:+ ") - " +:+ message +:+ ")" +:+ JS.nl.

(** The lines that the failing files of a run add to the log, each under
    the title that [titleOf] gives it. *)
Fixpoint failureLines (titleOf : Nfo -> string) (nfos : list Nfo) : string :=
  match nfos with
  | [] => ""
  | n :: rest =>
      match failureOf n with
      | Some message => logLine (titleOf n) (nfoYear n) message +:+ failureLines titleOf rest
      | None => failureLines titleOf rest
      end
  end.

(** The catalog entry of a file. *)
Definition entryOf (n : Nfo) : Movie.t :=
  Movie.mk (nfoId n) (nfoTitle n) (nfoYear n) (nfoPlot n)
    (Some ("/images/movies/" +:+ imageNameOf n))
    (nfoRuntime n) (nfoPremiered n) (nfoGenre n) (nfoTag n) (nfoRating n) (nfoActor n).

End script.

Definition emptyDisk : Disk := mkDisk ∅ [].

End Ingest.

(** ** The orders the specification speaks of *)

Module Order.
Section order.
Context `{E : Env}.

Definition yearDescending (a b : FuseResult.t) : Prop :=
  Movie.year (FuseResult.item a) >= Movie.year (FuseResult.item b).

Definition ratingDescending (a b : FuseResult.t) : Prop :=
  (Movie.rating (FuseResult.item b) <= Movie.rating (FuseResult.item a))%Q.

Definition titleAscending (a b : FuseResult.t) : Prop :=
  localeCompare (Movie.title (FuseResult.item a)) (Movie.title (FuseResult.item b)) <= 0.

(** Alphabetical order of items by title. *)
Definition alphabetical (a b : Movie.t) : Prop :=
  localeCompare (Movie.title a) (Movie.title b) <= 0.

(** No later result has a lower score; a result without a score is not
    compared. *)
Definition scoreAscending (a b : FuseResult.t) : Prop :=
  match FuseResult.score a, FuseResult.score b with
  | Some x, Some y => (x <= y)%Q
  | _, _ => True
  end.

Definition scored (r : FuseResult.t) : Prop := is_Some (FuseResult.score r).

Definition unscored (r : FuseResult.t) : Prop := FuseResult.score r = None.

(** The keys that [sortResults] has a case for. *)
Definition recognized (sortOption : string) : bool :=
  String.eqb sortOption "search" || String.eqb sortOption "title"
  || String.eqb sortOption "year" || String.eqb sortOption "rating".

(** What the sorts by title need of the collation: of two strings, one is
    not after the other. *)
Definition collationAsym : Prop :=
  forall a b : string, 0 < localeCompare a b -> localeCompare b a <= 0.

End order.
End Order.

(** ** The rank of a match *)

Module Relevance.
Import App.




End Relevance.

(** ** Runs of the selection store *)

Module Reach.
Import Dexie App.

(** The states of the page that toggles and resets lead to from a state
    whose selection store is empty. *)
Inductive reachable : World -> Prop :=
| reach_empty w :
    rows (selected (db w)) = [] -> reachable w
| reach_toggle w contentCard contentId contentTitle contentYear :
    reachable w ->
    reachable (toggleContentSelection contentCard contentId contentTitle contentYear w)
| reach_reset w content :
    reachable w -> reachable (reset content w).

(** The rows of the selection store that reference [contentId]. *)
Definition rowsFor (contentId : string) (w : World) : list Selected.t :=
  List.filter (fun r => String.eqb (Selected.refId r) contentId) (rows (selected (db w))).

(** [isSelected], as the page computes it. *)
Definition isSelected (contentId : string) (w : World) : bool :=
  someRefId (toArrayAuto (selected (db w))) contentId.

End Reach.

(** ** Selections whose lines the parser reads as they are *)

Module Lines.
Import App.



End Lines.

(** ** Sample data *)

Module Sample.
Import Dexie Dom.

(** Code-unit comparison as a collation. *)
Definition plainCompare (a b : string) : Z :=
  match String.compare a b with
  | Lt => -1
  | Eq => 0
  | Gt => 1
  end.

Definition film (id title : string) (year : Z) (genre : list string) (rating : Q) : Movie.t :=
  Movie.mk id title year "" None 0 "" genre None rating [].

Definition dune : Movie.t := film "tt1160419" "Dune" 2021 ["Adventure"; "Sci-Fi"] (8 # 1).
Definition arrival : Movie.t := film "tt2543164" "Arrival" 2016 ["Drama"; "Sci-Fi"] (79 # 10).
Definition heat : Movie.t := film "tt0113277" "Heat" 1995 ["Crime"; "Drama"] (83 # 10).

(** An index that scores a title by its distance in length from the query
    and reports the score. *)
Definition lengthScore (q : string) (m : Movie.t) : Q :=
  inject_Z (Z.abs (Z.of_nat (String.length (Movie.title m)) - Z.of_nat (String.length q))).

Definition scoring (content : list Movie.t) (q : string) : list FuseResult.t :=
  imap (fun i m => FuseResult.mk m i (Some (lengthScore q m))) content.

#[export] Instance env : Env := {|
  localeCompare := plainCompare;
  fuseSearch := scoring;
  movieList := [dune; arrival; heat];
  tvShowList := []
|}.

(** An index as [initFuse] builds it: it reports no score and returns its
    matches best first, here every item, nearest in length to the query
    first. *)
Definition ranked (content : list Movie.t) (q : string) : list FuseResult.t :=
  JS.sort
    (fun a b =>
       JS.Num (lengthScore q (FuseResult.item a) - lengthScore q (FuseResult.item b)))
    (App.wrapAll content).

Definition severance : Movie.t := film "tt11280740" "Severance" 2022 ["Drama"; "Mystery"] (87 # 10).
Definition dark : Movie.t := film "tt5753856" "Dark" 2017 ["Crime"; "Drama"] (87 # 10).

(** The page with that index, three bundled films and two bundled shows. *)
Definition pageEnv : Env := {|
  localeCompare := plainCompare;
  fuseSearch := ranked;
  movieList := [dune; arrival; heat];
  tvShowList := [severance; dark]
|}.

Definition blank : Page :=
  mkPage "" (mkSelect [("", "All Genres")] 0)
    (mkSelect [("none", "Sort by"); ("title", "Title"); ("year", "Year"); ("rating", "Rating")] 0)
    [] "" [] false.

Definition world0 : World := mkWorld emptyDb blank "" [].

(** A world whose movies table holds one row and whose shows table is
    empty. *)
Definition worldMoviesOnly : World :=
  mkWorld (mkDb (<[Movie.id dune := dune]> ∅) ∅ emptyAuto) blank "" [].

Definition missionNfo : Ingest.Nfo :=
  Ingest.mkNfo "954" "Mission: Impossible" 1996 "" "https://image.tmdb.org/t/p/original/mi.jpg"
    110 "1996-05-22" ["Action"] None (69 # 10) ["Tom Cruise"].

Definition duneNfo : Ingest.Nfo :=
  Ingest.mkNfo "438631" "Dune" 2021 "" "https://image.tmdb.org/t/p/original/dune.jpg"
    155 "2021-09-15" ["Adventure"] None (78 # 10) [].

(** Two titles with the letter U+00E9, e with acute accent. *)
Definition leonTitle : string := "L" +:+ String (ascii_of_nat 233) "on: The Professional".
Definition amelieTitle : string := "Am" +:+ String (ascii_of_nat 233) "lie".

Definition leonNfo : Ingest.Nfo :=
  Ingest.mkNfo "101" leonTitle 1994 "" "https://image.tmdb.org/t/p/original/leon.jpg"
    110 "1994-09-14" ["Crime"] None (83 # 10) ["Jean Reno"].

(** A network that is down. *)
Definition offline (url : string) : Ingest.Fetched := Ingest.Rejected "fetch failed".

(** A host that answers every request with a PNG. *)
Definition pngHost (url : string) : Ingest.Fetched :=
  Ingest.Response (Some "image/png") "PNG".

(** A host that serves the poster of Dune and nothing else. *)
Definition duneHost (url : string) : Ingest.Fetched :=
  if String.eqb url "https://image.tmdb.org/t/p/w220_and_h330_face/dune.jpg"
  then Ingest.Response (Some "image/jpeg") "JPEG"
  else Ingest.Response (Some "text/html") "Not found".

End Sample.

(** ** The session of the page: what the [DOMContentLoaded] listener
       keeps in its variables, and the listeners it installs *)

Module Session.
Import Dexie Dom Upd App.

Record t : Type := mk {
  world : World;
  loaded : Loaded;
  currentContentType : string;
  content : list Movie.t;
  fuse : string -> list FuseResult.t;
  pickerTitle : string
}.

Section session.
Context `{E : Env}.

(** The body of the listener up to the installation of the listeners;
    [heading] is the text the page has in [#picker-title]. *)
Definition start (heading : string) (w : World) : t :=
  let w1 := initializeDatabase w in
  let fetched := fetchContent w1 in
  let l := fst fetched in
  mk (snd fetched) l "movies" (loadedMovies l) (movieFuse l) heading.

(** The [change] listener of [#content-type-toggle]; [toggleValue] is the
    value of the control when the event arrives. *)
Definition onContentTypeChange (toggleValue : string) (s : t) : t :=
  let currentContentType := toggleValue in
  let content :=
    if String.eqb currentContentType "movies"
    then loadedMovies (loaded s) else loadedTvShows (loaded s) in
  let fuse :=
    if String.eqb currentContentType "movies"
    then movieFuse (loaded s) else tvShowFuse (loaded s) in
  let heading :=
    if String.eqb currentContentType "movies" then "Movie Picker" else "TV Show Picker" in
  mk (filterContent content fuse false (populateGenres content (world s)))
     (loaded s) currentContentType content fuse heading.

(** The [input] listener of the search field, once its debounce timer has
    run out. *)
Definition onSearchInput (s : t) : t :=
  mk (filterContent (content s) (fuse s) true (world s))
     (loaded s) (currentContentType s) (content s) (fuse s) (pickerTitle s).

(** The [change] listeners of the genre and the sort controls. *)
Definition onControlChange (s : t) : t :=
  mk (filterContent (content s) (fuse s) false (world s))
     (loaded s) (currentContentType s) (content s) (fuse s) (pickerTitle s).

(** The [click] listener of the reset button. *)
Definition onReset (s : t) : t :=
  mk (reset (content s) (world s))
     (loaded s) (currentContentType s) (content s) (fuse s) (pickerTitle s).

End session.
End Session.

(** ** The first variant of the page script: [filterMovies] with the sort
       inside, and [sortResults] on the movies themselves *)

Module FirstVariant.
Import Dexie Dom Upd App.

Section first.
Context `{E : Env}.

Definition sortResults (movies : list Movie.t) (sortOption : string) : list Movie.t :=
  if String.eqb sortOption "title" then
    JS.sort (fun a b => JS.ofZ (localeCompare (Movie.title a) (Movie.title b))) movies
  else if String.eqb sortOption "year" then
    JS.sort (fun a b => JS.ofZ (Movie.year b - Movie.year a)) movies
  else if String.eqb sortOption "rating" then
    JS.sort (fun a b => JS.Num (Movie.rating b - Movie.rating a)) movies
  else movies.

(** The list that [filterMovies] hands to [displayMovies]. *)
Definition filterMovies (movies : list Movie.t) (fuse : string -> list FuseResult.t)
    (p : Page) : list Movie.t :=
  let searchQuery := JS.toLowerCase (searchInput p) in
  let selectedGenre := value (genreFilter p) in
  let sortOption := value (sortOptions p) in
  let results0 : list FuseResult.t := [] in
  let results1 := if JS.truthy searchQuery then fuse searchQuery else results0 in
  let results2 :=
    if (length results1 =? 0)%nat && negb (JS.truthy searchQuery)
    then wrapAll movies else results1 in
  let results3 :=
    if JS.truthy selectedGenre then List.filter (hasGenre selectedGenre) results2 else results2 in
  let results4 :=
    if JS.truthy searchQuery then
      JS.sort (fun a b => JS.sub (FuseResult.score a) (FuseResult.score b)) results3
    else
      imap (fun index movie => FuseResult.mk movie index None)
        (sortResults (map FuseResult.item results3) sortOption) in
  map FuseResult.item results4.

End first.
End FirstVariant.

(** ** Notions used in the further properties *)

Module Props.
Import Dexie Dom Upd App Reach.

(** The page with the first, valueless option of the genre control chosen. *)
Definition noGenre (p : Page) : Page :=
  setGenreFilter (mkSelect [("", "All Genres")] 0) p.

(** Every card of the grid carries the class [selected] exactly when the
    selection store holds a row for its item. *)
Definition marksAgree (w : World) : Prop :=
  Forall (fun c => cardSelected c = isSelected (Movie.id (cardItem c)) w)
    (contentGrid (page w)).

(** The ids of the items shown in the grid. *)
Definition gridIds (w : World) : list string :=
  map (fun c => Movie.id (cardItem c)) (contentGrid (page w)).

(** The characters a sanitized title is made of. *)
Definition allowedChar (c : ascii) : bool :=
  Ingest.isWord c || Ingest.isSpace c || Ascii.eqb c "-" || Ascii.eqb c "_".

Fixpoint allChars (f : ascii -> bool) (s : string) : bool :=
  match s with
  | EmptyString => true
  | String c s' => f c && allChars f s'
  end.

(** Where the script stores the poster of a file. *)
Definition imagePathOf (dirname : string) (n : Ingest.Nfo) : string :=
  Ingest.pathJoin [dirname; "public"; "images"; "movies"; Ingest.imageNameOf n].

(** The disk after the download that [processNfoFiles] starts for one
    file. *)
Definition diskAfter (dirname : string) (fetch : string -> Ingest.Fetched)
    (n : Ingest.Nfo) (d : Ingest.Disk) : Ingest.Disk :=
  Ingest.downloadImage dirname fetch (Ingest.replaceImageUrl (Ingest.nfoThumb n))
    (imagePathOf dirname n) (Ingest.sanitizeTitle (Ingest.nfoTitle n)) (Ingest.nfoYear n) d.

(** The line of the error stream for a failed download. *)
Definition errorLine (n : Ingest.Nfo) (message : string) : string :=
  "ERROR: " +:+ Ingest.sanitizeTitle (Ingest.nfoTitle n) +:+ " ("
  +:+ JS.showZ (Ingest.nfoYear n) +:+ ") - " +:+ message.

(** The lines that the failing files of a run put on the error stream. *)
Fixpoint errorLines (fetch : string -> Ingest.Fetched) (nfos : list Ingest.Nfo) : list string :=
  match nfos with
  | [] => []
  | n :: rest =>
      match Ingest.failureOf fetch n with
      | Some message => errorLine n message :: errorLines fetch rest
      | None => errorLines fetch rest
      end
  end.

(** Every row of a catalog table sits under its own [id]. *)
Definition keyedById (t : gmap string Movie.t) : Prop :=
  forall k v, t !! k = Some v -> Movie.id v = k.

(** The [.nfo] files of a directory, parsed, in the order of the listing. *)
Definition nfosOf (dir : list (string * Ingest.Nfo)) : list Ingest.Nfo :=
  map snd (List.filter (fun f => Ingest.endsWith (fst f) ".nfo") dir).

End Props.

(* ===================================================================== *)
(** * Part II. Properties *)
(* ===================================================================== *)

(** ** Facts about the primitives *)

Module JSFacts.
Import JS.

Lemma positive_ofZ z : positive (ofZ z) = (0 <? z).
Proof.
  unfold positive, ofZ, Qle_bool, inject_Z; simpl.
  destruct (Z.ltb_spec 0 z); destruct (Z.leb_spec (z * 1) 0); simpl; lia.
Qed.

Lemma positive_Num q : positive (Num q) = true <-> (0 < q)%Q.
Proof.
  unfold positive. rewrite negb_true_iff.
  split; intros H.
  - apply Qnot_le_lt. intros Hle. apply Qle_bool_iff in Hle. congruence.
  - destruct (Qle_bool q 0) eqn:E; [|reflexivity].
    apply Qle_bool_iff in E. exfalso. exact (Qlt_not_le _ _ H E).
Qed.

Lemma positive_diff x y : positive (Num (x - y)) = true <-> (y < x)%Q.
Proof.
  rewrite positive_Num. split; intros H.
  - apply (Qplus_lt_l _ _ (- y)%Q). rewrite Qplus_opp_r. exact H.
  - apply (Qplus_lt_l _ _ (- y)%Q) in H. rewrite Qplus_opp_r in H. exact H.
Qed.

Lemma not_positive_diff x y : positive (Num (x - y)) = false <-> (x <= y)%Q.
Proof.
  split; intros H.
  - apply Qnot_lt_le. intros Hlt. apply positive_diff in Hlt. congruence.
  - destruct (positive (Num (x - y))) eqn:E; [|reflexivity].
    apply positive_diff in E. exfalso. exact (Qlt_not_le _ _ E H).
Qed.

Section sort_facts.
Context {A : Type} (comparefn : A -> A -> number).

Lemma insert_perm x l : insert comparefn x l ≡ₚ x :: l.
Proof.
  induction l as [|y l IH]; simpl; [reflexivity|].
  destruct (positive (comparefn x y)); [|reflexivity].
  rewrite IH. apply Permutation_swap.
Qed.

Lemma sort_perm l : sort comparefn l ≡ₚ l.
Proof.
  induction l as [|x l IH]; simpl; [reflexivity|].
  rewrite insert_perm. by rewrite IH.
Qed.

Lemma sort_length l : length (sort comparefn l) = length l.
Proof. apply Permutation_length, sort_perm. Qed.

Lemma sort_elem_of x l : x ∈ sort comparefn l <-> x ∈ l.
Proof. by rewrite sort_perm. Qed.

(** A comparator that never answers "greater" on the elements of the array
    leaves it as it is. *)
Lemma sort_unchanged l :
  (forall a b, a ∈ l -> b ∈ l -> before comparefn a b) -> sort comparefn l = l.
Proof.
  induction l as [|x l IH]; intros H; simpl; [reflexivity|].
  rewrite IH by (intros a b Ha Hb; apply H; by right).
  destruct l as [|y l]; simpl; [reflexivity|].
  rewrite (H x y); [reflexivity|by left|right; by left].
Qed.

(** Adjacent order needs only that two elements are never each greater than
    the other. *)
Section adjacent.
Hypothesis asym : forall a b,
  positive (comparefn a b) = true -> positive (comparefn b a) = false.

Lemma insert_Sorted x l :
  Sorted (before comparefn) l -> Sorted (before comparefn) (insert comparefn x l).
Proof.
  induction 1 as [|y l Hs IH Hhd]; simpl.
  - repeat constructor.
  - destruct (positive (comparefn x y)) eqn:E.
    + constructor; [exact IH|].
      destruct l as [|z l]; simpl.
      * constructor. by apply asym.
      * destruct (positive (comparefn x z)).
        -- constructor. by inversion Hhd.
        -- constructor. by apply asym.
    + constructor; [by constructor|]. by constructor.
Qed.

Lemma sort_Sorted l : Sorted (before comparefn) (sort comparefn l).
Proof.
  induction l as [|x l IH]; simpl; [constructor|]. by apply insert_Sorted.
Qed.
End adjacent.
End sort_facts.

End JSFacts.

(** ** The selection store *)

Module SelectionFacts.
Import Dexie Dom Upd App Reach.

Lemma someRefId_app l1 l2 r : someRefId (l1 ++ l2) r = someRefId l1 r || someRefId l2 r.
Proof. unfold someRefId. apply existsb_app. Qed.

Lemma someRefId_filter_out l r r' :
  someRefId (List.filter (fun s => negb (String.eqb (Selected.refId s) r)) l) r'
  = someRefId l r' && negb (String.eqb r' r).
Proof.
  induction l as [|s l IH]; simpl; [reflexivity|].
  destruct (String.eqb_spec (Selected.refId s) r) as [Heq|Hne]; simpl.
  - rewrite IH. destruct (String.eqb_spec (Selected.refId s) r') as [Heq'|Hne']; simpl.
    + subst r r'. rewrite String.eqb_refl. simpl. by rewrite andb_false_r.
    + reflexivity.
  - rewrite IH. destruct (String.eqb_spec (Selected.refId s) r') as [Heq'|Hne']; simpl.
    + subst r'. destruct (String.eqb_spec (Selected.refId s) r); [contradiction|reflexivity].
    + reflexivity.
Qed.

(** What one toggle does to the store. *)
Lemma toggle_store contentCard contentId contentTitle contentYear w :
  selected (db (toggleContentSelection contentCard contentId contentTitle contentYear w))
  = if isSelected contentId w
    then deleteWhereRefId contentId (selected (db w))
    else add contentId contentTitle contentYear (selected (db w)).
Proof.
  unfold toggleContentSelection, isSelected.
  destruct (someRefId (toArrayAuto (selected (db w))) contentId); reflexivity.
Qed.

Lemma isSelected_toggle contentCard contentId contentTitle contentYear w r :
  isSelected r (toggleContentSelection contentCard contentId contentTitle contentYear w)
  = if String.eqb r contentId then negb (isSelected contentId w) else isSelected r w.
Proof.
  unfold isSelected at 1. rewrite toggle_store.
  destruct (isSelected contentId w) eqn:Hsel; unfold toArrayAuto; simpl.
  - rewrite someRefId_filter_out.
    destruct (String.eqb_spec r contentId) as [->|Hne]; simpl.
    + apply andb_false_r.
    + apply andb_true_r.
  - rewrite someRefId_app. simpl. rewrite orb_false_r.
    rewrite (String.eqb_sym contentId r).
    destruct (String.eqb_spec r contentId) as [->|Hne]; simpl.
    + unfold isSelected, toArrayAuto in Hsel. rewrite Hsel. reflexivity.
    + apply orb_false_r.
Qed.

(** C1: two toggles of the same [refId] in a row leave its membership in
    the selection store as it was: selected stays selected, unselected stays
    unselected; the membership of every other reference is untouched as
    well. *)
Theorem toggle_twice_membership
    (w : World) (card1 card2 : nat) (refId title1 title2 : string) (year1 year2 : Z) :
  let w2 := toggleContentSelection card2 refId title2 year2
              (toggleContentSelection card1 refId title1 year1 w) in
  isSelected refId w2 = isSelected refId w
  /\ isSelected refId (toggleContentSelection card1 refId title1 year1 w)
     = negb (isSelected refId w)
  /\ forall other, isSelected other w2 = isSelected other w.
Proof.
  cbv zeta. repeat split.
  - rewrite !isSelected_toggle, String.eqb_refl. apply negb_involutive.
  - rewrite isSelected_toggle, String.eqb_refl. reflexivity.
  - intros other. rewrite !isSelected_toggle.
    destruct (String.eqb_spec other refId) as [->|Hne].
    + rewrite String.eqb_refl. apply negb_involutive.
    + reflexivity.
Qed.

Lemma someRefId_false_notin l r :
  someRefId l r = false -> r ∉ map Selected.refId l.
Proof.
  induction l as [|s l IH]; simpl; intros H.
  - apply not_elem_of_nil.
  - apply orb_false_iff in H as [H1 H2].
    apply not_elem_of_cons. split; [|by apply IH].
    intros ->. by rewrite String.eqb_refl in H1.
Qed.

Lemma NoDup_map_filter {A B : Type} (f : A -> B) (p : A -> bool) l :
  NoDup (map f l) -> NoDup (map f (List.filter p l)).
Proof.
  induction l as [|x l IH]; simpl; intros H; [constructor|].
  apply NoDup_cons in H as [Hx Hl].
  destruct (p x); simpl; [|by apply IH].
  apply NoDup_cons. split; [|by apply IH].
  intros Hin. apply Hx.
  apply list_elem_of_fmap in Hin as (y & -> & Hy).
  apply list_elem_of_fmap. exists y. split; [reflexivity|].
  apply list_elem_of_In. apply list_elem_of_In in Hy.
  apply filter_In in Hy. tauto.
Qed.

(** The invariant behind C2. *)
Lemma reachable_NoDup w : reachable w -> NoDup (map Selected.refId (rows (selected (db w)))).
Proof.
  induction 1 as [w Hw|w card r t y Hr IH|w content Hr IH].
  - rewrite Hw. constructor.
  - rewrite toggle_store.
    destruct (isSelected r w) eqn:Hsel; simpl.
    + by apply NoDup_map_filter.
    + rewrite map_app. simpl.
      apply NoDup_app. repeat split; [exact IH| |apply NoDup_singleton].
      intros x Hx Hx'. apply list_elem_of_singleton in Hx'. subst x.
      by apply (someRefId_false_notin _ _ Hsel).
  - simpl. constructor.
Qed.

Lemma NoDup_rows_le_1 l r :
  NoDup (map Selected.refId l) ->
  (length (List.filter (fun s => String.eqb (Selected.refId s) r) l) <= 1)%nat.
Proof.
  induction l as [|s l IH]; simpl; intros H; [lia|].
  apply NoDup_cons in H as [Hs Hl].
  destruct (String.eqb_spec (Selected.refId s) r) as [Heq|Hne]; [|by apply IH].
  simpl. enough (List.filter (fun s0 => String.eqb (Selected.refId s0) r) l = []) as -> by (simpl; lia).
  destruct (List.filter _ l) as [|s' l'] eqn:E; [reflexivity|].
  exfalso. apply Hs.
  assert (In s' (List.filter (fun s0 => String.eqb (Selected.refId s0) r) l)) as Hin
    by (rewrite E; by left).
  apply filter_In in Hin as [Hin Hr]. apply String.eqb_eq in Hr.
  apply list_elem_of_fmap. exists s'. split; [congruence|by apply list_elem_of_In].
Qed.

(** C2: in every state that toggles and resets lead to from an empty
    selection store, the store holds at most one row for each [refId]. *)
Theorem at_most_one_selection_per_refId (w : World) (refId : string) :
  reachable w -> (length (rowsFor refId w) <= 1)%nat.
Proof.
  intros Hr. unfold rowsFor. apply NoDup_rows_le_1. by apply reachable_NoDup.
Qed.

(** C2 on a sample run: Dune, Arrival, Dune again, a reset, and Arrival. *)
Lemma at_most_one_selection_per_refId_witness :
  let w :=
    toggleContentSelection 1 "tt2543164" "Arrival" 2016
      (reset [Sample.dune; Sample.arrival]
         (toggleContentSelection 0 "tt1160419" "Dune" 2021
            (toggleContentSelection 1 "tt2543164" "Arrival" 2016
               (toggleContentSelection 0 "tt1160419" "Dune" 2021 Sample.world0)))) in
  reachable w /\ (length (rowsFor "tt2543164" w) <= 1)%nat.
Proof.
  cbv zeta.
  assert (reachable Sample.world0) as H0 by (apply reach_empty; reflexivity).
  split.
  - do 1 apply reach_toggle. apply reach_reset. do 3 apply reach_toggle. exact H0.
  - apply at_most_one_selection_per_refId.
    do 1 apply reach_toggle. apply reach_reset. do 3 apply reach_toggle. exact H0.
Defined.

End SelectionFacts.

(** ** Order of strings by code units, and sets of strings *)

Module StringFacts.
Import JS.

Lemma ascii_compare_lt_trans a b c :
  Ascii.compare a b = Lt -> Ascii.compare b c = Lt -> Ascii.compare a c = Lt.
Proof. unfold Ascii.compare. rewrite !N.compare_lt_iff. lia. Qed.

Lemma compare_refl a : String.compare a a = Eq.
Proof.
  induction a as [|x a IH]; simpl; [reflexivity|].
  unfold Ascii.compare. by rewrite N.compare_refl.
Qed.

Lemma compare_lt_trans a : forall b c,
  String.compare a b = Lt -> String.compare b c = Lt -> String.compare a c = Lt.
Proof.
  induction a as [|x a IH]; intros [|y b] [|z c]; simpl; try congruence.
  destruct (Ascii.compare x y) eqn:Exy; try congruence;
  destruct (Ascii.compare y z) eqn:Eyz; try congruence.
  - apply Ascii.compare_eq_iff in Exy, Eyz. subst.
    unfold Ascii.compare. rewrite N.compare_refl. apply IH.
  - apply Ascii.compare_eq_iff in Exy. subst. by rewrite Eyz.
  - apply Ascii.compare_eq_iff in Eyz. subst. by rewrite Exy.
  - by rewrite (ascii_compare_lt_trans _ _ _ Exy Eyz).
Qed.

Lemma compare_gt_lt a b : String.compare a b = Gt <-> String.compare b a = Lt.
Proof.
  rewrite (String.compare_antisym b a).
  destruct (String.compare a b); simpl; split; congruence.
Qed.

Lemma compare_le_trans a b c :
  String.compare a b <> Gt -> String.compare b c <> Gt -> String.compare a c <> Gt.
Proof.
  intros Hab Hbc Hac. apply compare_gt_lt in Hac.
  destruct (String.compare a b) eqn:Eab; [| |congruence].
  - apply String.compare_eq_iff in Eab. subst b.
    apply Hbc. by apply compare_gt_lt.
  - destruct (String.compare b c) eqn:Ebc; [| |congruence].
    + apply String.compare_eq_iff in Ebc. subst c.
      pose proof (compare_lt_trans _ _ _ Hac Eab) as H. rewrite compare_refl in H. congruence.
    + pose proof (compare_lt_trans _ _ _ (compare_lt_trans _ _ _ Eab Ebc) Hac) as H.
      rewrite compare_refl in H. congruence.
Qed.

Lemma positive_codeUnitCompare a b :
  positive (codeUnitCompare a b) = true <-> String.compare a b = Gt.
Proof.
  unfold codeUnitCompare. destruct (String.compare a b); rewrite JSFacts.positive_ofZ;
    split; intros H; try reflexivity; try congruence; by apply Z.ltb_lt in H.
Qed.

Lemma before_codeUnitCompare a b :
  before codeUnitCompare a b <-> String.compare a b <> Gt.
Proof.
  unfold before. rewrite <- positive_codeUnitCompare.
  destruct (positive (codeUnitCompare a b)); split; congruence.
Qed.

Lemma codeUnitCompare_asym a b :
  positive (codeUnitCompare a b) = true -> positive (codeUnitCompare b a) = false.
Proof.
  rewrite positive_codeUnitCompare. intros H.
  apply before_codeUnitCompare. apply compare_gt_lt in H.
  rewrite H. congruence.
Qed.

Lemma existsb_eqb_elem_of x l : existsb (String.eqb x) l = true <-> x ∈ l.
Proof.
  rewrite existsb_exists. split.
  - intros (y & Hy & He). apply String.eqb_eq in He. subst. by apply list_elem_of_In.
  - intros H. exists x. split; [by apply list_elem_of_In|apply String.eqb_refl].
Qed.

Lemma setOf_elem_of l : forall seen x, x ∈ setOf seen l <-> x ∈ l /\ x ∉ seen.
Proof.
  induction l as [|y l IH]; intros seen x; simpl.
  - split; [intros H; by apply elem_of_nil in H|intros [H _]; by apply elem_of_nil in H].
  - destruct (existsb (String.eqb y) seen) eqn:E.
    + apply existsb_eqb_elem_of in E. rewrite IH, elem_of_cons.
      split; [tauto|]. intros [[->|H] Hn]; [contradiction|tauto].
    + assert (y ∉ seen) as Hy.
      { intros H. apply existsb_eqb_elem_of in H. congruence. }
      rewrite !elem_of_cons, IH, not_elem_of_cons.
      split.
      * intros [->|[H1 [H2 H3]]]; tauto.
      * intros [[->|H] Hn]; [by left|].
        destruct (decide (x = y)) as [->|Hne]; [by left|right; tauto].
Qed.

Lemma setOf_NoDup l : forall seen, NoDup (setOf seen l).
Proof.
  induction l as [|y l IH]; intros seen; simpl; [constructor|].
  destruct (existsb (String.eqb y) seen); [apply IH|].
  apply NoDup_cons. split; [|apply IH].
  rewrite setOf_elem_of, not_elem_of_cons. tauto.
Qed.

(** Sorted without ties, for a transitive order, is strictly sorted. *)
Lemma StronglySorted_strict l :
  NoDup l -> Sorted (fun a b => String.compare a b <> Gt) l ->
  StronglySorted (fun a b => String.compare a b = Lt) l.
Proof.
  intros Hnd Hs.
  apply Sorted_StronglySorted in Hs; [|intros a b c; apply compare_le_trans].
  induction Hs as [|x l Hs IH Hall]; [constructor|].
  apply NoDup_cons in Hnd as [Hx Hnd].
  constructor; [by apply IH|].
  apply List.Forall_forall. intros y Hy.
  rewrite List.Forall_forall in Hall. specialize (Hall y Hy).
  destruct (String.compare x y) eqn:E; [|reflexivity|congruence].
  apply String.compare_eq_iff in E. subst y.
  exfalso. apply Hx. by apply list_elem_of_In.
Qed.

End StringFacts.

(** ** The genre options *)

Module GenreFacts.
Import Dexie Dom Upd App.

Lemma genresOf_elem_of content g :
  g ∈ genresOf content <-> exists item, item ∈ content /\ g ∈ Movie.genre item.
Proof.
  unfold genresOf. rewrite JSFacts.sort_elem_of, StringFacts.setOf_elem_of.
  rewrite list_elem_of_In, in_flat_map.
  split.
  - intros [(item & Hi & Hg) _]. exists item. by rewrite !list_elem_of_In.
  - intros (item & Hi & Hg). split; [|apply not_elem_of_nil].
    exists item. by rewrite <- !list_elem_of_In.
Qed.

Lemma genresOf_NoDup content : NoDup (genresOf content).
Proof.
  unfold genresOf. rewrite JSFacts.sort_perm. apply StringFacts.setOf_NoDup.
Qed.

(** C9: the options that [populateGenres] builds are the fixed first option
    followed by one option for each genre label that occurs in some item of
    the catalog, each label once, in strictly ascending order. *)
Theorem genre_options_distinct_sorted (content : list Movie.t) (w : World) :
  let genres := genresOf content in
  options (genreFilter (page (populateGenres content w)))
    = ("", "All Genres") :: map (fun genre => (genre, genre)) genres
  /\ (forall g, g ∈ genres <-> exists item, item ∈ content /\ g ∈ Movie.genre item)
  /\ NoDup genres
  /\ StronglySorted (fun a b => String.compare a b = Lt) genres.
Proof.
  cbv zeta. split; [reflexivity|]. split; [apply genresOf_elem_of|].
  split; [apply genresOf_NoDup|].
  apply StringFacts.StronglySorted_strict; [apply genresOf_NoDup|].
  unfold genresOf.
  eapply Sorted_ind with (P := fun l => Sorted (fun a b => String.compare a b <> Gt) l);
    [constructor| |apply (JSFacts.sort_Sorted _ StringFacts.codeUnitCompare_asym)].
  intros a l _ IH Hhd. constructor; [exact IH|].
  destruct Hhd; constructor. by apply StringFacts.before_codeUnitCompare.
Qed.

End GenreFacts.

(** ** The filter and sort pipeline *)

Module PipelineFacts.
Import Dexie Dom Upd App Order.

Lemma Sorted_mono {A : Type} (R R' : A -> A -> Prop) l :
  (forall a b, R a b -> R' a b) -> Sorted R l -> Sorted R' l.
Proof.
  intros H. induction 1 as [|x l Hs IH Hhd]; constructor; [exact IH|].
  destruct Hhd; constructor. by apply H.
Qed.

(** On a list whose elements all satisfy [P], an order that is transitive
    there relates every earlier element to every later one. *)
Lemma Sorted_StronglySorted_on {A : Type} (R : A -> A -> Prop) (P : A -> Prop) l :
  (forall a b c, P a -> P b -> P c -> R a b -> R b c -> R a c) ->
  Forall P l -> Sorted R l -> StronglySorted R l.
Proof.
  intros Htr HP Hs. induction Hs as [|x l Hs IH Hhd]; [constructor|].
  apply Forall_cons in HP as [Hx HP].
  specialize (IH HP). constructor; [exact IH|].
  destruct Hhd as [|y l Hxy]; [constructor|].
  apply Forall_cons in HP as [Hy HP].
  apply StronglySorted_inv in IH as [_ Hall].
  constructor; [exact Hxy|].
  apply List.Forall_forall. intros z Hz.
  rewrite List.Forall_forall in Hall.
  apply (Htr x y z); auto.
  rewrite Forall_forall in HP. apply HP. by apply list_elem_of_In.
Qed.

Section pipeline.
Context `{E : Env}.

Lemma sortCompare_search a b :
  sortCompare "search" a b = JS.sub (FuseResult.score a) (FuseResult.score b).
Proof. reflexivity. Qed.

Lemma sortCompare_title a b :
  sortCompare "title" a b
  = JS.ofZ (localeCompare (Movie.title (FuseResult.item a)) (Movie.title (FuseResult.item b))).
Proof. reflexivity. Qed.

Lemma sortCompare_year a b :
  sortCompare "year" a b
  = JS.ofZ (Movie.year (FuseResult.item b) - Movie.year (FuseResult.item a)).
Proof. reflexivity. Qed.

Lemma sortCompare_rating a b :
  sortCompare "rating" a b
  = JS.Num (Movie.rating (FuseResult.item b) - Movie.rating (FuseResult.item a)).
Proof. reflexivity. Qed.

Lemma sortCompare_other sortOption a b :
  recognized sortOption = false -> sortCompare sortOption a b = JS.ofZ 0.
Proof.
  unfold recognized, sortCompare. intros H.
  repeat (apply orb_false_iff in H as [H ?]).
  by repeat match goal with Heq : String.eqb _ _ = false |- _ => rewrite Heq; clear Heq end.
Qed.

Lemma before_search a b : JS.before (sortCompare "search") a b <-> scoreAscending a b.
Proof.
  unfold JS.before, scoreAscending. rewrite sortCompare_search.
  destruct (FuseResult.score a) as [x|], (FuseResult.score b) as [y|]; simpl JS.sub;
    try (simpl; tauto).
  apply JSFacts.not_positive_diff.
Qed.

Lemma before_year a b : JS.before (sortCompare "year") a b <-> yearDescending a b.
Proof.
  unfold JS.before, yearDescending. rewrite sortCompare_year, JSFacts.positive_ofZ.
  rewrite Z.ltb_ge. lia.
Qed.

Lemma before_rating a b : JS.before (sortCompare "rating") a b <-> ratingDescending a b.
Proof.
  unfold JS.before, ratingDescending. rewrite sortCompare_rating.
  apply JSFacts.not_positive_diff.
Qed.

Lemma before_title a b : JS.before (sortCompare "title") a b <-> titleAscending a b.
Proof.
  unfold JS.before, titleAscending. rewrite sortCompare_title, JSFacts.positive_ofZ.
  rewrite Z.ltb_ge. lia.
Qed.

Lemma asym_search a b :
  JS.positive (sortCompare "search" a b) = true -> JS.positive (sortCompare "search" b a) = false.
Proof.
  rewrite !sortCompare_search.
  destruct (FuseResult.score a) as [x|], (FuseResult.score b) as [y|]; simpl JS.sub;
    try (simpl; congruence).
  rewrite JSFacts.positive_diff, JSFacts.not_positive_diff. apply Qlt_le_weak.
Qed.

Lemma asym_year a b :
  JS.positive (sortCompare "year" a b) = true -> JS.positive (sortCompare "year" b a) = false.
Proof.
  rewrite !sortCompare_year, !JSFacts.positive_ofZ, Z.ltb_lt, Z.ltb_ge. lia.
Qed.

Lemma asym_rating a b :
  JS.positive (sortCompare "rating" a b) = true -> JS.positive (sortCompare "rating" b a) = false.
Proof.
  rewrite !sortCompare_rating, JSFacts.positive_diff, JSFacts.not_positive_diff.
  apply Qlt_le_weak.
Qed.

Lemma asym_title a b :
  collationAsym ->
  JS.positive (sortCompare "title" a b) = true -> JS.positive (sortCompare "title" b a) = false.
Proof.
  intros Hc. rewrite !sortCompare_title, !JSFacts.positive_ofZ, Z.ltb_lt, Z.ltb_ge.
  apply Hc.
Qed.

(** C4: [sortResults] rearranges its input, and for the key "year" every
    adjacent pair of the output has [a.year >= b.year], for "rating"
    [a.rating >= b.rating], for "title" the titles do not decrease in the
    collation of [localeCompare]; for "none" and for every key without a
    case of its own the output is the input. *)
Theorem sort_total_ordering (results : list FuseResult.t) :
  collationAsym ->
  (forall sortOption, sortResults results sortOption ≡ₚ results)
  /\ Sorted yearDescending (sortResults results "year")
  /\ Sorted ratingDescending (sortResults results "rating")
  /\ Sorted titleAscending (sortResults results "title")
  /\ sortResults results "none" = results
  /\ (forall sortOption, recognized sortOption = false -> sortResults results sortOption = results).
Proof.
  intros Hc. unfold sortResults.
  assert (forall sortOption, recognized sortOption = false ->
            JS.sort (sortCompare sortOption) results = results) as Hother.
  { intros sortOption Hr. apply JSFacts.sort_unchanged. intros a b _ _.
    unfold JS.before. by rewrite sortCompare_other. }
  repeat split.
  - intros sortOption. apply JSFacts.sort_perm.
  - eapply Sorted_mono; [apply before_year|]. apply JSFacts.sort_Sorted, asym_year.
  - eapply Sorted_mono; [apply before_rating|]. apply JSFacts.sort_Sorted, asym_rating.
  - eapply Sorted_mono; [apply before_title|]. apply JSFacts.sort_Sorted.
    intros a b. by apply asym_title.
  - by apply Hother.
  - exact Hother.
Qed.

Lemma scoreAscending_trans a b c :
  scored a -> scored b -> scored c ->
  scoreAscending a b -> scoreAscending b c -> scoreAscending a c.
Proof.
  unfold scored, scoreAscending. intros [x ->] [y ->] [z ->]. apply Qle_trans.
Qed.

Lemma item_wrapAll_from (content : list Movie.t) : forall g : nat -> nat,
  map FuseResult.item (imap (fun index item => FuseResult.mk item (g index) None) content) = content.
Proof.
  induction content as [|x content IH]; intros g; simpl; [reflexivity|].
  f_equal. apply (IH (g ∘ S)).
Qed.

Lemma item_wrapAll content : map FuseResult.item (wrapAll content) = content.
Proof. apply (item_wrapAll_from content (fun i => i)). Qed.

(** When the results carry scores. *)
Lemma scored_results_sorted
    (content : list Movie.t) (fuse : string -> list FuseResult.t) (p : Page) :
  Sorted scoreAscending (sortedResults content fuse true p)
  /\ (Forall scored (matchedResults content fuse p) ->
        StronglySorted scoreAscending (sortedResults content fuse true p)).
Proof.
  unfold sortedResults, sortResults.
  assert (Sorted scoreAscending (JS.sort (sortCompare "search") (matchedResults content fuse p)))
    as Hsorted.
  { eapply Sorted_mono; [apply before_search|]. apply JSFacts.sort_Sorted, asym_search. }
  split; [exact Hsorted|].
  intros Hall. apply (Sorted_StronglySorted_on _ scored); [apply scoreAscending_trans| |exact Hsorted].
  apply Forall_forall. intros r Hr. apply JSFacts.sort_elem_of in Hr.
  rewrite Forall_forall in Hall. by apply Hall.
Qed.

Lemma wrapAll_unscored_from (content : list Movie.t) : forall g : nat -> nat,
  Forall unscored (imap (fun index item => FuseResult.mk item (g index) None) content).
Proof.
  induction content as [|x l IH]; intros g; simpl; constructor; [reflexivity|].
  apply (IH (g ∘ S)).
Qed.

Lemma filter_Forall {A : Type} (P : A -> Prop) (f : A -> bool) l :
  Forall P l -> Forall P (List.filter f l).
Proof.
  induction 1 as [|x l Hx Hl IH]; simpl; [constructor|].
  destruct (f x); [by constructor|exact IH].
Qed.





Lemma matchedResults_no_query_no_genre content fuse p :
  searchInput p = "" -> value (genreFilter p) = "" ->
  matchedResults content fuse p = wrapAll content.
Proof. unfold matchedResults. intros -> ->. reflexivity. Qed.

Lemma toArray_perm (t : gmap string Movie.t) : toArray t ≡ₚ (map_to_list t).*2.
Proof. unfold toArray. by rewrite JSFacts.sort_perm. Qed.

Lemma bulkPut_fresh (items : list Movie.t) : forall t : gmap string Movie.t,
  NoDup (map Movie.id items) ->
  (forall it, it ∈ items -> t !! Movie.id it = None) ->
  map_to_list (bulkPut items t) ≡ₚ map (fun it => (Movie.id it, it)) items ++ map_to_list t.
Proof.
  induction items as [|x items IH]; intros t Hnd Hfresh; [reflexivity|].
  simpl in Hnd. apply NoDup_cons in Hnd as [Hx Hnd].
  change (bulkPut (x :: items) t) with (bulkPut items (<[Movie.id x := x]> t)).
  rewrite IH; [|exact Hnd|].
  - rewrite map_to_list_insert by (apply Hfresh; by left).
    simpl. by rewrite Permutation_middle.
  - intros it Hit. rewrite lookup_insert_ne.
    + apply Hfresh. by right.
    + intros Heq. apply Hx. rewrite Heq. apply list_elem_of_fmap. by exists it.
Qed.

Lemma bulkPut_empty_rows (items : list Movie.t) :
  NoDup (map Movie.id items) -> (map_to_list (bulkPut items ∅)).*2 ≡ₚ items.
Proof.
  intros Hnd. rewrite bulkPut_fresh; [|exact Hnd|intros; apply lookup_empty].
  rewrite map_to_list_empty, app_nil_r.
  rewrite <- list_fmap_compose. simpl.
  induction items as [|x items IH]; [reflexivity|].
  simpl. constructor. apply IH. simpl in Hnd. by apply NoDup_cons in Hnd as [_ ?].
Qed.

Lemma fetchContent_movies w :
  loadedMovies (fst (fetchContent w)) = JS.sort byTitle (toArray (movies (db w))).
Proof. reflexivity. Qed.

Lemma displayContent_grid content selectedContent w :
  map cardItem (contentGrid (page (displayContent content selectedContent w))) = content.
Proof.
  unfold displayContent. simpl. rewrite <- list_fmap_compose.
  induction content as [|x content IH]; [reflexivity|]. simpl. by f_equal.
Qed.

(** C5: with an empty search field, no genre chosen, the sort control on
    "none", and not run for live text input, [filterContent] shows the
    catalog that [fetchContent] loaded, as it is: every row of the movies
    table once, in the alphabetical order of the titles; and when the table
    was empty at start-up and the bundled catalog has no two items with one
    id, these are the items of the bundled catalog, each once. *)
Theorem empty_query_passthrough (w w' : World) :
  collationAsym ->
  searchInput (page w') = "" ->
  value (genreFilter (page w')) = "" ->
  value (sortOptions (page w')) = "none" ->
  let w1 := initializeDatabase w in
  let loaded := fst (fetchContent w1) in
  let out :=
    map FuseResult.item
      (sortedResults (loadedMovies loaded) (movieFuse loaded) false (page w')) in
  map cardItem (contentGrid (page (filterContent (loadedMovies loaded) (movieFuse loaded) false w'))) = out
  /\ out = loadedMovies loaded
  /\ out ≡ₚ (map_to_list (movies (db w1))).*2
  /\ Sorted alphabetical out
  /\ (movies (db w) = ∅ -> NoDup (map Movie.id movieList) -> out ≡ₚ movieList).
Proof.
  intros Hc Hq Hg Hs. cbv zeta.
  assert (forall content fuse,
    map FuseResult.item (sortedResults content fuse false (page w')) = content) as Hout.
  { intros content fuse. unfold sortedResults, sortResults. rewrite Hs.
    rewrite matchedResults_no_query_no_genre by assumption.
    rewrite JSFacts.sort_unchanged; [apply item_wrapAll|].
    intros a b _ _. unfold JS.before. by rewrite sortCompare_other. }
  rewrite Hout. rewrite fetchContent_movies.
  split; [|split; [reflexivity|split; [|split]]].
  - unfold filterContent. rewrite displayContent_grid. apply Hout.
  - by rewrite JSFacts.sort_perm, toArray_perm.
  - apply (Sorted_mono (JS.before byTitle)).
    + intros a b. unfold JS.before, byTitle, alphabetical.
      rewrite JSFacts.positive_ofZ, Z.ltb_ge. lia.
    + apply JSFacts.sort_Sorted. intros a b. unfold byTitle.
      rewrite !JSFacts.positive_ofZ, Z.ltb_lt, Z.ltb_ge. apply Hc.
  - intros Hempty Hnd.
    rewrite JSFacts.sort_perm, toArray_perm.
    unfold initializeDatabase, count. rewrite Hempty, map_size_empty. simpl.
    rewrite Hempty. by apply bulkPut_empty_rows.
Qed.

End pipeline.

(** The code-unit collation of the sample environment is a collation. *)
Lemma plainCompare_asym : collationAsym (E := Sample.env).
Proof.
  intros a b.
  change (0 < Sample.plainCompare a b -> Sample.plainCompare b a <= 0).
  unfold Sample.plainCompare. rewrite (String.compare_antisym b a).
  destruct (String.compare a b); simpl; lia.
Qed.

Lemma sample_ids_NoDup : NoDup (map Movie.id (movieList (Env := Sample.env))).
Proof. apply (bool_decide_unpack _). vm_compute. exact I. Qed.




(** C4 on a sample. *)
Lemma sort_total_ordering_witness :
  collationAsym (E := Sample.env)
  /\ Sorted yearDescending
       (sortResults (E := Sample.env) (wrapAll [Sample.heat; Sample.dune; Sample.arrival]) "year").
Proof.
  split; [exact plainCompare_asym|].
  exact (proj1 (proj2
    (sort_total_ordering (E := Sample.env)
       (wrapAll [Sample.heat; Sample.dune; Sample.arrival]) plainCompare_asym))).
Defined.

(** C5 on a sample: a first start with three bundled films. *)
Lemma empty_query_passthrough_witness :
  let loaded := fst (fetchContent (E := Sample.env) (initializeDatabase (E := Sample.env) Sample.world0)) in
  collationAsym (E := Sample.env)
  /\ searchInput (page Sample.world0) = ""
  /\ value (genreFilter (page Sample.world0)) = ""
  /\ value (sortOptions (page Sample.world0)) = "none"
  /\ map FuseResult.item
       (sortedResults (E := Sample.env) (loadedMovies loaded) (movieFuse loaded) false
          (page Sample.world0))
     ≡ₚ [Sample.dune; Sample.arrival; Sample.heat].
Proof.
  cbv zeta.
  split; [exact plainCompare_asym|]. do 3 (split; [reflexivity|]).
  exact (proj2 (proj2 (proj2 (proj2
    (empty_query_passthrough (E := Sample.env) Sample.world0 Sample.world0
       plainCompare_asym eq_refl eq_refl eq_refl)))) eq_refl sample_ids_NoDup).
Defined.

End PipelineFacts.

(** ** The selected box and the clipboard *)

Module ClipboardFacts.
Import Dexie Dom Upd App Reach.



Lemma append_empty_r (s : string) : s +:+ "" = s.
Proof.
  induction s as [|a s IH]; [reflexivity|].
  change (String a (s +:+ "") = String a s). by rewrite IH.
Qed.


















End ClipboardFacts.

(** ** Seeding at start-up *)

Module SeedFacts.
Import Dexie Dom Upd App.

Section seeding.
Context `{E : Env}.

(** C10: start-up seeding looks at the movies table only. It runs exactly
    when that table is empty, and then puts the bundled movies into the
    movies table and the bundled shows into the shows table; with a row in
    the movies table nothing is changed, whatever the shows table holds, an
    empty one included; and replacing the shows table by any other does not
    change whether seeding runs. *)
Theorem seeding_gated_on_movies (w : World) :
  (count (movies (db w)) = 0%nat
     <-> console (initializeDatabase w) = console w ++ ["Database seeded successfully"])
  /\ (count (movies (db w)) = 0%nat ->
        db (initializeDatabase w)
        = mkDb (bulkPut movieList (movies (db w))) (bulkPut tvShowList (tvShows (db w)))
               (selected (db w)))
  /\ (count (movies (db w)) <> 0%nat -> initializeDatabase w = w)
  /\ (count (movies (db w)) <> 0%nat -> tvShows (db w) = ∅ ->
        tvShows (db (initializeDatabase w)) = ∅)
  /\ (forall tv,
        console (initializeDatabase (setCatalogs (movies (db w)) tv w))
        = console (initializeDatabase w)).
Proof.
  unfold initializeDatabase.
  repeat split.
  - intros ->. reflexivity.
  - destruct (Nat.eqb_spec (count (movies (db w))) 0) as [H0|Hn]; [done|].
    intros H. apply (f_equal length) in H. rewrite length_app in H. simpl in H. lia.
  - intros ->. reflexivity.
  - intros Hn. by destruct (Nat.eqb_spec (count (movies (db w))) 0).
  - intros Hn Htv. by destruct (Nat.eqb_spec (count (movies (db w))) 0).
  - intros tv. simpl. by destruct (count (movies (db w)) =? 0)%nat.
Qed.

End seeding.

(** C10 on a sample: a movies table with one row and an empty shows table. *)
Lemma seeding_gated_on_movies_witness :
  count (movies (db Sample.worldMoviesOnly)) <> 0%nat
  /\ tvShows (db Sample.worldMoviesOnly) = ∅
  /\ tvShows (db (initializeDatabase (E := Sample.env) Sample.worldMoviesOnly)) = ∅.
Proof.
  assert (count (movies (db Sample.worldMoviesOnly)) <> 0%nat) as Hn
    by (vm_compute; discriminate).
  split; [exact Hn|]. split; [reflexivity|].
  exact (proj1 (proj2 (proj2 (proj2
    (seeding_gated_on_movies (E := Sample.env) Sample.worldMoviesOnly)))) Hn eq_refl).
Defined.

End SeedFacts.

(** ** The ingestion script *)

Module IngestFacts.
Import Ingest.

Lemma append_assoc (a b c : string) : (a +:+ b) +:+ c = a +:+ (b +:+ c).
Proof.
  induction a as [|x a IH]; [reflexivity|].
  change (String x ((a +:+ b) +:+ c) = String x (a +:+ (b +:+ c))). by rewrite IH.
Qed.

Lemma append_inv_head (a b c : string) : a +:+ b = a +:+ c -> b = c.
Proof.
  induction a as [|x a IH]; [done|].
  change (String x (a +:+ b) = String x (a +:+ c) -> b = c).
  intros H. apply IH. congruence.
Qed.

Lemma refused_jpegDeclared ct : refused ct = negb (jpegDeclared ct).
Proof.
  destruct ct as [ct|]; [|reflexivity]. unfold refused, jpegDeclared.
  destruct ct as [|c ct]; [reflexivity|]. reflexivity.
Qed.

Section script_facts.
Context (dirname : string) (fetch : string -> Fetched).

Lemma imagePath_not_log (imageName : string) :
  pathJoin [dirname; "public"; "images"; "movies"; imageName] <> logFilePath dirname.
Proof.
  unfold logFilePath, pathJoin. cbn [String.concat]. intros H.
  apply append_inv_head in H. discriminate H.
Qed.

Lemma readOr_append path data d : readOr path (appendFileSync path data d) = readOr path d +:+ data.
Proof. unfold readOr, appendFileSync. cbn [files]. by rewrite lookup_insert_eq. Qed.

Lemma readOr_write_ne path path' data d :
  path' <> path -> readOr path (writeFileSync path' data d) = readOr path d.
Proof. intros H. unfold readOr, writeFileSync. cbn [files]. by rewrite lookup_insert_ne. Qed.

(** C8, as the code has it: a fetched poster is written to its path exactly
    when the declared content type of the response starts with
    ["image/jpeg"]; for any other declared type, and for none, the only file
    touched is the failure log, which gets the line of the failure. *)
Theorem image_written_iff_jpeg
    (url outputPath title : string) (year : Z) (d : Disk)
    (contentType : option string) (body : string) :
  fetch url = Response contentType body ->
  let d' := downloadImage dirname fetch url outputPath title year d in
  (jpegDeclared contentType = true ->
     files d' = <[outputPath := body]> (files d) /\ stderr d' = stderr d)
  /\ (jpegDeclared contentType = false ->
        files d'
        = <[logFilePath dirname :=
              readOr (logFilePath dirname) d
              +:+ logLine title year
                    ("Content is not an image. Content-Type: " +:+ showNullable contentType)]>
            (files d)).
Proof.
  intros Hf. cbv zeta. unfold downloadImage. rewrite Hf, refused_jpegDeclared.
  split; intros ->; cbn [negb]; [split; reflexivity|reflexivity].
Qed.

Lemma log_after_download (n : Nfo) (d : Disk) :
  readOr (logFilePath dirname)
    (downloadImage dirname fetch (replaceImageUrl (nfoThumb n))
       (pathJoin [dirname; "public"; "images"; "movies"; imageNameOf n])
       (sanitizeTitle (nfoTitle n)) (nfoYear n) d)
  = readOr (logFilePath dirname) d
    +:+ match failureOf fetch n with
        | Some message => logLine (sanitizeTitle (nfoTitle n)) (nfoYear n) message
        | None => ""
        end.
Proof.
  unfold downloadImage, failureOf.
  destruct (fetch (replaceImageUrl (nfoThumb n))) as [message|contentType body].
  - unfold failed, logFailedDownload. by rewrite readOr_append.
  - destruct (refused contentType).
    + unfold failed, logFailedDownload. by rewrite readOr_append.
    + rewrite readOr_write_ne by apply imagePath_not_log.
      symmetry. apply ClipboardFacts.append_empty_r.
Qed.

Lemma run_from (nfos : list Nfo) : forall acc : list Movie.t * Disk,
  fst (foldl (processOne dirname fetch) acc nfos) = fst acc ++ map entryOf nfos
  /\ readOr (logFilePath dirname) (snd (foldl (processOne dirname fetch) acc nfos))
     = readOr (logFilePath dirname) (snd acc) +:+ failureLines fetch (fun n => sanitizeTitle (nfoTitle n)) nfos.
Proof.
  induction nfos as [|n nfos IH]; intros acc.
  - simpl. split; [by rewrite app_nil_r|by rewrite ClipboardFacts.append_empty_r].
  - cbn [foldl map failureLines].
    destruct (IH (processOne dirname fetch acc n)) as [IH1 IH2].
    rewrite IH1, IH2. split.
    + unfold processOne. cbn [fst]. by rewrite <- app_assoc.
    + unfold processOne at 1. cbn [snd]. rewrite log_after_download.
      rewrite append_assoc. f_equal. by destruct (failureOf fetch n).
Qed.

(** C7, as the code has it: the run emits the catalog entry of every [.nfo]
    file, in order, its image set to the local path, whether or not the
    download of its poster failed; and the failure log grows by exactly one
    line ["<sanitized title> (<year>) - <error message>)"] for each file
    whose fetch was rejected or whose content type was refused, in order. *)
Theorem failures_logged_entries_kept (dir : list (string * Nfo)) (d : Disk) :
  let nfos := map snd (List.filter (fun f => endsWith (fst f) ".nfo") dir) in
  let run := processNfoFiles dirname fetch dir d in
  fst run = map entryOf nfos
  /\ Forall (fun n => Movie.image (entryOf n) = Some ("/images/movies/" +:+ imageNameOf n)) nfos
  /\ readOr (logFilePath dirname) (snd run)
     = readOr (logFilePath dirname) d +:+ failureLines fetch (fun n => sanitizeTitle (nfoTitle n)) nfos.
Proof.
  cbv zeta. unfold processNfoFiles.
  destruct (run_from (map snd (List.filter (fun f => endsWith (fst f) ".nfo") dir)) ([], d))
    as [H1 H2].
  split; [exact H1|]. split; [|exact H2].
  apply Forall_forall. reflexivity.
Qed.

End script_facts.

(** C8 on a sample: the poster of Dune, served as a JPEG. *)
Lemma image_written_iff_jpeg_witness :
  let url := "https://image.tmdb.org/t/p/w220_and_h330_face/dune.jpg" in
  let path := "/srv/public/images/movies/Dune (2021).jpg" in
  Sample.duneHost url = Response (Some "image/jpeg") "JPEG"
  /\ files (downloadImage "/srv" Sample.duneHost url path "Dune" 2021 emptyDisk)
     = <[path := "JPEG"]> (files emptyDisk).
Proof.
  cbv zeta. split; [reflexivity|].
  exact (proj1 (proj1
    (image_written_iff_jpeg "/srv" Sample.duneHost
       "https://image.tmdb.org/t/p/w220_and_h330_face/dune.jpg"
       "/srv/public/images/movies/Dune (2021).jpg" "Dune" 2021 emptyDisk
       (Some "image/jpeg") "JPEG" eq_refl) eq_refl)).
Defined.

(** Against C7 as written: the log line of a failed download carries the
    sanitized title, not the title: for "Mission: Impossible" with the network down, the line reads
    "Mission- Impossible (1996) - fetch failed)". *)
Lemma log_line_has_sanitized_title :
  let run := processNfoFiles "/srv" Sample.offline [("mi.nfo", Sample.missionNfo)] emptyDisk in
  failureOf Sample.offline Sample.missionNfo = Some "fetch failed"
  /\ readOr (logFilePath "/srv") (snd run)
     = "Mission- Impossible (1996) - fetch failed)" +:+ JS.nl
  /\ readOr (logFilePath "/srv") (snd run)
     <> logLine (nfoTitle Sample.missionNfo) (nfoYear Sample.missionNfo) "fetch failed".
Proof.
  cbv zeta. split; [reflexivity|]. split; [vm_compute; reflexivity|].
  vm_compute. discriminate.
Qed.

(** Against C8 as written: a response that declares a PNG declares an
    image format, and still no file is written for it: the failure is
    logged. *)
Lemma png_declared_not_written :
  let d' := downloadImage "/srv" Sample.pngHost "https://host/p.png" "/srv/public/images/movies/P (2000).jpg"
              "P" 2000 emptyDisk in
  imageDeclared (Some "image/png") = true
  /\ files d' !! "/srv/public/images/movies/P (2000).jpg" = None
  /\ readOr (logFilePath "/srv") d'
     = "P (2000) - Content is not an image. Content-Type: image/png)" +:+ JS.nl.
Proof.
  cbv zeta. split; [reflexivity|]. split; vm_compute; reflexivity.
Qed.

End IngestFacts.

(* ===================================================================== *)
(** * Part III. Further properties of the page and of the script *)
(* ===================================================================== *)

(** ** More on the filter *)

Module FilterFacts.
Import Dexie Dom Upd App Order Props.

Lemma truthy_false s : JS.truthy s = false <-> s = "".
Proof.
  unfold JS.truthy. rewrite negb_false_iff. apply String.eqb_eq.
Qed.

Lemma hasGenre_elem_of g r :
  hasGenre g r = true <-> g ∈ Movie.genre (FuseResult.item r).
Proof. apply StringFacts.existsb_eqb_elem_of. Qed.

Lemma filter_length_le {A : Type} (f : A -> bool) l :
  (length (List.filter f l) <= length l)%nat.
Proof.
  induction l as [|x l IH]; simpl; [lia|]. destruct (f x); simpl; lia.
Qed.

Lemma lowerChar_idem c : JS.lowerChar (JS.lowerChar c) = JS.lowerChar c.
Proof. destruct c as [[] [] [] [] [] [] [] []]; reflexivity. Qed.

Lemma toLowerCase_idem s : JS.toLowerCase (JS.toLowerCase s) = JS.toLowerCase s.
Proof.
  induction s as [|c s IH]; [reflexivity|]. simpl. by rewrite lowerChar_idem, IH.
Qed.

Section filter_facts.
Context `{E : Env}.

Lemma matchedResults_split content fuse p :
  matchedResults content fuse p
  = if JS.truthy (value (genreFilter p))
    then List.filter (hasGenre (value (genreFilter p))) (matchedResults content fuse (noGenre p))
    else matchedResults content fuse (noGenre p).
Proof. reflexivity. Qed.

Lemma sortedResults_genre_iff content fuse isSearch p r :
  r ∈ sortedResults content fuse isSearch p
  <-> r ∈ sortedResults content fuse isSearch (noGenre p)
      /\ (value (genreFilter p) = ""
          \/ value (genreFilter p) ∈ Movie.genre (FuseResult.item r)).
Proof.
  unfold sortedResults, sortResults.
  rewrite !JSFacts.sort_elem_of, matchedResults_split.
  destruct (JS.truthy (value (genreFilter p))) eqn:Ht.
  - rewrite list_elem_of_In, filter_In, <- list_elem_of_In, hasGenre_elem_of.
    split; [tauto|]. intros [H [Hg|Hg]]; [|tauto].
    apply truthy_false in Hg. congruence.
  - apply truthy_false in Ht. tauto.
Qed.

(** X1: choosing a genre only removes results. A result is shown with a
    genre chosen exactly when it is shown without one and its item lists
    that genre; so the list with the genre is never longer. *)
Theorem genre_filter_monotone
    (content : list Movie.t) (fuse : string -> list FuseResult.t) (isSearch : bool) (p : Page) :
  (forall r,
     r ∈ sortedResults content fuse isSearch p
     <-> r ∈ sortedResults content fuse isSearch (noGenre p)
         /\ (value (genreFilter p) = ""
             \/ value (genreFilter p) ∈ Movie.genre (FuseResult.item r)))
  /\ (length (sortedResults content fuse isSearch p)
      <= length (sortedResults content fuse isSearch (noGenre p)))%nat.
Proof.
  split; [intros r; apply sortedResults_genre_iff|].
  unfold sortedResults, sortResults.
  - rewrite !JSFacts.sort_length, matchedResults_split.
    destruct (JS.truthy (value (genreFilter p))); [apply filter_length_le|lia].
Qed.

(** X2: a genre that no matching item lists gives an empty grid and the
    count "Showing 0 results", not an error. *)
Theorem unknown_genre_empty
    (content : list Movie.t) (fuse : string -> list FuseResult.t) (isSearch : bool) (w : World) :
  value (genreFilter (page w)) <> "" ->
  Forall (fun r => value (genreFilter (page w)) ∉ Movie.genre (FuseResult.item r))
    (matchedResults content fuse (noGenre (page w))) ->
  let w' := filterContent content fuse isSearch w in
  contentGrid (page w') = [] /\ resultCount (page w') = "Showing 0 results".
Proof.
  intros Hne Hall. cbv zeta.
  assert (sortedResults content fuse isSearch (page w) = []) as Hnil.
  { destruct (sortedResults content fuse isSearch (page w)) as [|r l] eqn:Hs; [reflexivity|].
    assert (r ∈ sortedResults content fuse isSearch (page w)) as Hr by (rewrite Hs; by left).
    apply sortedResults_genre_iff in Hr as [Hr [Hg|Hg]]; [contradiction|].
    unfold sortedResults, sortResults in Hr. apply JSFacts.sort_elem_of in Hr.
    rewrite Forall_forall in Hall. by apply Hall in Hr. }
  unfold filterContent. rewrite Hnil. split; reflexivity.
Qed.

(** X4: the search field is read without regard to the case of the letters
    A-Z: two inputs with the same lower-case form give the same results, and
    so do an input and its lower-case form. *)
Theorem query_case_insensitive
    (content : list Movie.t) (fuse : string -> list FuseResult.t) (isSearch : bool)
    (p : Page) (q1 q2 : string) :
  JS.toLowerCase q1 = JS.toLowerCase q2 ->
  sortedResults content fuse isSearch (setSearchInput q1 p)
  = sortedResults content fuse isSearch (setSearchInput q2 p)
  /\ sortedResults content fuse isSearch (setSearchInput (JS.toLowerCase q1) p)
     = sortedResults content fuse isSearch (setSearchInput q1 p).
Proof.
  intros Hq. unfold sortedResults, matchedResults.
  cbn [searchInput setSearchInput genreFilter sortOptions].
  rewrite toLowerCase_idem, Hq. split; reflexivity.
Qed.

End filter_facts.

(** X2 on a sample: the genre "Western" among three films that are not. *)
Lemma unknown_genre_empty_witness :
  let w :=
    setPage (setGenreFilter (mkSelect [("", "All Genres"); ("Western", "Western")] 1) Sample.blank)
      Sample.world0 in
  let content := [Sample.dune; Sample.arrival; Sample.heat] in
  value (genreFilter (page w)) <> ""
  /\ contentGrid
       (page (filterContent (E := Sample.env) content (initFuse (E := Sample.env) content) false w))
     = [].
Proof.
  cbv zeta.
  assert (value (genreFilter (page
            (setPage (setGenreFilter (mkSelect [("", "All Genres"); ("Western", "Western")] 1)
               Sample.blank) Sample.world0))) <> "") as Hne by discriminate.
  split; [exact Hne|].
  refine (proj1 (unknown_genre_empty (E := Sample.env) _ _ false _ Hne _)).
  apply (bool_decide_unpack _). vm_compute. exact I.
Defined.

(** X4 on a sample: "DUNE" and "Dune". *)
Lemma query_case_insensitive_witness :
  let content := [Sample.dune; Sample.arrival; Sample.heat] in
  JS.toLowerCase "DUNE" = JS.toLowerCase "Dune"
  /\ sortedResults (E := Sample.env) content (initFuse (E := Sample.env) content) true
       (setSearchInput "DUNE" Sample.blank)
     = sortedResults (E := Sample.env) content (initFuse (E := Sample.env) content) true
         (setSearchInput "Dune" Sample.blank).
Proof.
  cbv zeta. split; [reflexivity|].
  exact (proj1 (query_case_insensitive (E := Sample.env) _ _ true Sample.blank "DUNE" "Dune" eq_refl)).
Defined.

End FilterFacts.

(** ** Stability of the sorts *)

Module StabilityFacts.
Import Dexie Dom Upd App Order Props.

Section stable.
Context {A : Type} (comparefn : A -> A -> JS.number) (P : A -> bool).
Hypothesis ties : forall a b,
  P a = true -> P b = true -> JS.positive (comparefn a b) = false.

Lemma insert_filter x l :
  List.filter P (JS.insert comparefn x l) = List.filter P (x :: l).
Proof.
  induction l as [|y l IH]; [reflexivity|].
  cbn [JS.insert]. destruct (JS.positive (comparefn x y)) eqn:Hxy; [|reflexivity].
  cbn [List.filter] in *. rewrite IH.
  destruct (P x) eqn:Hx, (P y) eqn:Hy; try reflexivity.
  rewrite (ties x y Hx Hy) in Hxy. discriminate.
Qed.

Lemma sort_filter l : List.filter P (JS.sort comparefn l) = List.filter P l.
Proof.
  induction l as [|x l IH]; [reflexivity|].
  cbn [JS.sort foldr]. fold (JS.sort comparefn l).
  rewrite insert_filter. cbn [List.filter]. by rewrite IH.
Qed.
End stable.

Section stable_sorts.
Context `{E : Env}.

(** X3: [sortResults] is stable. Under "year" the results of one year keep
    the order they came in, under "rating" those of one rating, under
    "title" those of one title, and under "search" those of one score. *)
Theorem sort_is_stable (results : list FuseResult.t) :
  collationAsym ->
  (forall y,
     List.filter (fun r => Movie.year (FuseResult.item r) =? y) (sortResults results "year")
     = List.filter (fun r => Movie.year (FuseResult.item r) =? y) results)
  /\ (forall q,
        List.filter (fun r => Qeq_bool (Movie.rating (FuseResult.item r)) q)
          (sortResults results "rating")
        = List.filter (fun r => Qeq_bool (Movie.rating (FuseResult.item r)) q) results)
  /\ (forall t,
        List.filter (fun r => String.eqb (Movie.title (FuseResult.item r)) t)
          (sortResults results "title")
        = List.filter (fun r => String.eqb (Movie.title (FuseResult.item r)) t) results)
  /\ (forall s,
        List.filter
          (fun r => match FuseResult.score r with Some x => Qeq_bool x s | None => false end)
          (sortResults results "search")
        = List.filter
            (fun r => match FuseResult.score r with Some x => Qeq_bool x s | None => false end)
            results).
Proof.
  intros Hc. unfold sortResults. repeat split.
  - intros y. apply sort_filter. intros a b Ha Hb.
    apply Z.eqb_eq in Ha, Hb.
    rewrite PipelineFacts.sortCompare_year, JSFacts.positive_ofZ. apply Z.ltb_ge. lia.
  - intros q. apply sort_filter. intros a b Ha Hb.
    apply Qeq_bool_iff in Ha, Hb.
    rewrite PipelineFacts.sortCompare_rating. apply JSFacts.not_positive_diff.
    rewrite Ha, Hb. apply Qle_refl.
  - intros t. apply sort_filter. intros a b Ha Hb.
    apply String.eqb_eq in Ha, Hb.
    rewrite PipelineFacts.sortCompare_title, JSFacts.positive_ofZ, Ha, Hb. apply Z.ltb_ge.
    destruct (Z.lt_ge_cases 0 (localeCompare t t)) as [Hlt|Hge]; [|lia].
    by apply Hc.
  - intros s. apply sort_filter. intros a b Ha Hb.
    rewrite PipelineFacts.sortCompare_search.
    destruct (FuseResult.score a) as [x|]; [|discriminate].
    destruct (FuseResult.score b) as [y|]; [|discriminate].
    apply Qeq_bool_iff in Ha, Hb. apply JSFacts.not_positive_diff.
    rewrite Ha, Hb. apply Qle_refl.
Qed.

End stable_sorts.

(** X3 on a sample: two films of 1995 among others. *)
Lemma sort_is_stable_witness :
  let results :=
    wrapAll [Sample.heat; Sample.dune; Sample.film "tt0114369" "Se7en" 1995 ["Crime"] (86 # 10)] in
  collationAsym (E := Sample.env)
  /\ List.filter (fun r => Movie.year (FuseResult.item r) =? 1995)
       (sortResults (E := Sample.env) results "year")
     = List.filter (fun r => Movie.year (FuseResult.item r) =? 1995) results.
Proof.
  cbv zeta. split; [exact PipelineFacts.plainCompare_asym|].
  exact (proj1 (sort_is_stable (E := Sample.env) _ PipelineFacts.plainCompare_asym) 1995).
Defined.

End StabilityFacts.

(** ** Reset, toggles and the marks of the grid *)

Module MarkFacts.
Import Dexie Dom Upd App Reach Props.

Lemma Forall_unmarked content :
  Forall (fun c => cardSelected c = false) (map (createContentCard []) content).
Proof. induction content as [|x l IH]; simpl; constructor; [reflexivity|exact IH]. Qed.

(** X5: after a reset the selection store is empty, with its key generator
    where it was and the catalogs untouched; the search field is empty and
    both controls are back on their first option; the grid shows the given
    catalog with no card marked; the selected box says that nothing is
    selected, so that nothing is left to copy. *)
Theorem reset_clears (content : list Movie.t) (w : World) :
  let w' := reset content w in
  rows (selected (db w')) = []
  /\ nextKey (selected (db w')) = nextKey (selected (db w))
  /\ movies (db w') = movies (db w) /\ tvShows (db w') = tvShows (db w)
  /\ searchInput (page w') = ""
  /\ selectedIndex (genreFilter (page w')) = 0%nat
  /\ selectedIndex (sortOptions (page w')) = 0%nat
  /\ options (genreFilter (page w')) = options (genreFilter (page w))
  /\ map cardItem (contentGrid (page w')) = content
  /\ Forall (fun c => cardSelected c = false) (contentGrid (page w'))
  /\ (forall refId, isSelected refId w' = false)
  /\ selectedBox (page w') = [Elem "h3" "" [Text "Nothing selected"]]
  /\ querySelectorAllIn (selectedBox (page w')) "li" = [].
Proof.
  cbv zeta. repeat split.
  - apply PipelineFacts.displayContent_grid.
  - apply Forall_unmarked.
Qed.

Lemma filter_partition_length {A : Type} (f : A -> bool) l :
  (length (List.filter f l) + length (List.filter (fun x => negb (f x)) l) = length l)%nat.
Proof.
  induction l as [|x l IH]; [reflexivity|]. simpl. destruct (f x); simpl; lia.
Qed.

Lemma someRefId_rows_ge_1 l r :
  someRefId l r = true ->
  (1 <= length (List.filter (fun s => String.eqb (Selected.refId s) r) l))%nat.
Proof.
  induction l as [|s l IH]; simpl; [discriminate|].
  destruct (String.eqb (Selected.refId s) r); simpl; [lia|exact IH].
Qed.

(** X6: in a state that toggles and resets lead to from an empty store, a
    toggle of a selected item removes exactly one row, and a toggle of an
    unselected item adds exactly one. *)
Theorem toggle_changes_one_row
    (w : World) (card : nat) (refId title : string) (year : Z) :
  reachable w ->
  let w' := toggleContentSelection card refId title year w in
  if isSelected refId w
  then S (length (rows (selected (db w')))) = length (rows (selected (db w)))
  else length (rows (selected (db w'))) = S (length (rows (selected (db w)))).
Proof.
  intros Hr. cbv zeta. rewrite SelectionFacts.toggle_store.
  destruct (isSelected refId w) eqn:Hsel.
  - cbn [deleteWhereRefId rows].
    pose proof (filter_partition_length
      (fun s => String.eqb (Selected.refId s) refId) (rows (selected (db w)))) as Hp.
    pose proof (SelectionFacts.NoDup_rows_le_1 _ refId (SelectionFacts.reachable_NoDup _ Hr)) as Hle.
    pose proof (someRefId_rows_ge_1 _ _ Hsel) as Hge.
    unfold toArrayAuto in Hge. lia.
  - cbn [add rows]. rewrite length_app. simpl. lia.
Qed.

(** X6 on a sample: removing Dune again after selecting it. *)
Lemma toggle_changes_one_row_witness :
  let w := toggleContentSelection 0 "tt1160419" "Dune" 2021 Sample.world0 in
  reachable w
  /\ S (length (rows (selected (db (toggleContentSelection 0 "tt1160419" "Dune" 2021 w)))))
     = length (rows (selected (db w))).
Proof.
  cbv zeta.
  assert (reachable (toggleContentSelection 0 "tt1160419" "Dune" 2021 Sample.world0)) as Hr
    by (apply reach_toggle, reach_empty; reflexivity).
  split; [exact Hr|].
  exact (toggle_changes_one_row _ 0 "tt1160419" "Dune" 2021 Hr).
Defined.

Lemma marksAgree_displayContent content w :
  marksAgree (displayContent content (toArrayAuto (selected (db w))) w).
Proof.
  unfold marksAgree, displayContent. cbn [page setPage contentGrid setContentGrid
    updateSelectedBox setResultCount setSelectedBox].
  apply Forall_forall. intros c Hc.
  apply list_elem_of_fmap in Hc as (m & -> & _). reflexivity.
Qed.

Section displays.
Context `{E : Env}.

(** X8: every redisplay of the grid marks exactly the cards of the items
    the selection store holds: after [filterContent], after [reset], and at
    start-up after [fetchContent], which shows the selections kept from
    earlier visits. *)
Theorem displays_set_marks
    (content : list Movie.t) (fuse : string -> list FuseResult.t) (isSearch : bool) (w : World) :
  marksAgree (filterContent content fuse isSearch w)
  /\ marksAgree (reset content w)
  /\ marksAgree (snd (fetchContent w))
  /\ db (snd (fetchContent w)) = db w
  /\ db (filterContent content fuse isSearch w) = db w.
Proof.
  repeat split.
  - apply marksAgree_displayContent.
  - unfold marksAgree. apply Forall_forall. intros c Hc.
    pose proof (Forall_unmarked content) as Hun.
    rewrite Forall_forall in Hun. by rewrite (Hun c Hc).
  - apply (marksAgree_displayContent _ (populateGenres _ w)).
Qed.

End displays.

(** X7: when the cards of the grid show items with distinct ids and their
    marks agree with the selection store, they still agree after a click on
    any card: the clicked card changes its mark together with the store, and
    no other card is concerned. *)
Theorem click_keeps_marks (contentCard : nat) (w : World) :
  marksAgree w -> NoDup (gridIds w) -> marksAgree (clickCard contentCard w).
Proof.
  unfold marksAgree, gridIds, clickCard. intros Hm Hnd.
  destruct (contentGrid (page w) !! contentCard) as [c|] eqn:Hc; [|exact Hm].
  rewrite Forall_lookup in Hm. apply Forall_lookup. intros j d Hj.
  rewrite SelectionFacts.isSelected_toggle.
  assert (contentGrid (page (toggleContentSelection contentCard (Movie.id (cardItem c))
            (Movie.title (cardItem c)) (Movie.year (cardItem c)) w))
          = alter (fun c0 => mkCard (cardItem c0) (negb (isSelected (Movie.id (cardItem c)) w)))
              contentCard (contentGrid (page w))) as Hgrid.
  { unfold toggleContentSelection, isSelected.
    destruct (someRefId (toArrayAuto (selected (db w))) (Movie.id (cardItem c))); reflexivity. }
  rewrite Hgrid in Hj.
  destruct (decide (j = contentCard)) as [->|Hne].
  - rewrite list_lookup_alter_eq, Hc in Hj. simpl in Hj. injection Hj as <-.
    cbn [cardItem cardSelected]. by rewrite String.eqb_refl.
  - rewrite list_lookup_alter_ne in Hj by done.
    destruct (String.eqb_spec (Movie.id (cardItem d)) (Movie.id (cardItem c))) as [Heq|_];
      [|by apply (Hm j)].
    exfalso. apply Hne.
    apply (NoDup_lookup _ j contentCard (Movie.id (cardItem d)) Hnd).
    + by rewrite list_lookup_fmap, Hj.
    + by rewrite list_lookup_fmap, Hc, Heq.
Qed.

(** X7 on a sample: the grid of two films after a first click. *)
Lemma click_keeps_marks_witness :
  let w := displayContent [Sample.dune; Sample.arrival] [] Sample.world0 in
  marksAgree w /\ NoDup (gridIds w) /\ marksAgree (clickCard 1 (clickCard 0 w)).
Proof.
  cbv zeta.
  assert (marksAgree (displayContent [Sample.dune; Sample.arrival] [] Sample.world0)) as Hm
    by (repeat constructor).
  assert (NoDup (gridIds (displayContent [Sample.dune; Sample.arrival] [] Sample.world0))) as Hnd
    by (apply (bool_decide_unpack _); vm_compute; exact I).
  assert (NoDup (gridIds (clickCard 0 (displayContent [Sample.dune; Sample.arrival] [] Sample.world0))))
    as Hnd' by (apply (bool_decide_unpack _); vm_compute; exact I).
  split; [exact Hm|]. split; [exact Hnd|].
  exact (click_keeps_marks 1 _ (click_keeps_marks 0 _ Hm Hnd) Hnd').
Defined.

End MarkFacts.

(** ** More on seeding *)

Module BulkFacts.
Import Dexie Dom Upd App Props.

Lemma bulkPut_cons x items (t : gmap string Movie.t) :
  bulkPut (x :: items) t = bulkPut items (<[Movie.id x := x]> t).
Proof. reflexivity. Qed.

(** [bulkPut] lays its rows over the table. *)
Lemma bulkPut_union items : forall t : gmap string Movie.t,
  bulkPut items t = bulkPut items ∅ ∪ t.
Proof.
  induction items as [|x items IH]; intros t.
  - symmetry. apply (left_id_L ∅ (∪)).
  - rewrite !bulkPut_cons, (IH (<[Movie.id x := x]> t)), (IH (<[Movie.id x := x]> ∅)).
    rewrite insert_empty, insert_union_singleton_l. apply (assoc_L (∪)).
Qed.

Lemma bulkPut_idem items (t : gmap string Movie.t) :
  bulkPut items (bulkPut items t) = bulkPut items t.
Proof.
  rewrite (bulkPut_union items (bulkPut items t)), (bulkPut_union items t).
  rewrite (assoc_L (∪)). by rewrite (idemp_L (∪)).
Qed.

Lemma bulkPut_lookup_notin items : forall (t : gmap string Movie.t) k,
  k ∉ map Movie.id items -> bulkPut items t !! k = t !! k.
Proof.
  induction items as [|x items IH]; intros t k Hk; [reflexivity|].
  simpl in Hk. apply not_elem_of_cons in Hk as [Hne Hk].
  rewrite bulkPut_cons, IH by exact Hk. by rewrite lookup_insert_ne.
Qed.

Lemma bulkPut_lookup_in items : forall (t : gmap string Movie.t) it,
  it ∈ items ->
  exists it', bulkPut items t !! Movie.id it = Some it'
              /\ it' ∈ items /\ Movie.id it' = Movie.id it.
Proof.
  induction items as [|x items IH]; intros t it Hit; [by apply elem_of_nil in Hit|].
  rewrite bulkPut_cons.
  destruct (decide (Movie.id it ∈ map Movie.id items)) as [Hin|Hnotin].
  - apply list_elem_of_fmap in Hin as (y & Hy & Hyin).
    destruct (IH (<[Movie.id x := x]> t) y Hyin) as (it' & Hl & Hin' & Hid).
    exists it'. rewrite Hy. split; [exact Hl|]. split; [by right|congruence].
  - apply elem_of_cons in Hit as [->|Hit].
    + exists x. rewrite bulkPut_lookup_notin by exact Hnotin.
      rewrite lookup_insert_eq. split; [reflexivity|]. split; [by left|reflexivity].
    + exfalso. apply Hnotin. apply list_elem_of_fmap. by exists it.
Qed.

Lemma bulkPut_lookup_NoDup items : forall (t : gmap string Movie.t) it,
  NoDup (map Movie.id items) -> it ∈ items -> bulkPut items t !! Movie.id it = Some it.
Proof.
  induction items as [|x items IH]; intros t it Hnd Hit; [by apply elem_of_nil in Hit|].
  simpl in Hnd. apply NoDup_cons in Hnd as [Hx Hnd].
  rewrite bulkPut_cons. apply elem_of_cons in Hit as [->|Hit].
  - rewrite bulkPut_lookup_notin by exact Hx. apply lookup_insert_eq.
  - by apply IH.
Qed.

Lemma bulkPut_keyed items : forall t : gmap string Movie.t,
  keyedById t -> keyedById (bulkPut items t).
Proof.
  induction items as [|x items IH]; intros t Ht; [exact Ht|].
  rewrite bulkPut_cons. apply IH. intros k v Hkv.
  destruct (decide (k = Movie.id x)) as [->|Hne].
  - rewrite lookup_insert_eq in Hkv. congruence.
  - rewrite lookup_insert_ne in Hkv by done. by apply Ht.
Qed.

Lemma bulkPut_keeps items (t : gmap string Movie.t) k :
  is_Some (t !! k) -> is_Some (bulkPut items t !! k).
Proof.
  intros Hk. rewrite bulkPut_union, lookup_union.
  destruct (bulkPut items ∅ !! k); destruct Hk as [v ->]; by eexists.
Qed.

Section seed_more.
Context `{E : Env}.

(** X9: seeding writes by id, so that doing it again changes nothing: the
    tables after two runs of [seedDatabase], and after two start-ups, are
    the tables after one. *)
Theorem seeding_idempotent (w : World) :
  db (seedDatabase (seedDatabase w)) = db (seedDatabase w)
  /\ db (initializeDatabase (initializeDatabase w)) = db (initializeDatabase w).
Proof.
  assert (db (seedDatabase (seedDatabase w)) = db (seedDatabase w)) as Hseed.
  { unfold seedDatabase. cbn [db log setCatalogs movies tvShows selected].
    by rewrite !bulkPut_idem. }
  split; [exact Hseed|].
  unfold initializeDatabase.
  destruct (count (movies (db w)) =? 0)%nat eqn:H0.
  - destruct (count (movies (db (seedDatabase w))) =? 0)%nat; [exact Hseed|reflexivity].
  - by rewrite H0.
Qed.

(** X10: after seeding, every bundled movie and show is in its table under
    its id, by a row of the bundle with that id, and by itself when the ids
    of the bundle are distinct; in both tables the keys that were there
    before are still there, the rows under a key that is no id of the bundle
    are what they were, and a table whose rows sat under their ids is still
    such a table; the selection store is as it was. *)
Theorem seeded_rows_present (w : World) :
  let w' := seedDatabase w in
  (forall it, it ∈ movieList ->
     exists it', movies (db w') !! Movie.id it = Some it'
                 /\ it' ∈ movieList /\ Movie.id it' = Movie.id it)
  /\ (forall it, it ∈ tvShowList ->
        exists it', tvShows (db w') !! Movie.id it = Some it'
                    /\ it' ∈ tvShowList /\ Movie.id it' = Movie.id it)
  /\ (NoDup (map Movie.id movieList) ->
        forall it, it ∈ movieList -> movies (db w') !! Movie.id it = Some it)
  /\ (NoDup (map Movie.id tvShowList) ->
        forall it, it ∈ tvShowList -> tvShows (db w') !! Movie.id it = Some it)
  /\ (forall k, is_Some (movies (db w) !! k) -> is_Some (movies (db w') !! k))
  /\ (forall k, is_Some (tvShows (db w) !! k) -> is_Some (tvShows (db w') !! k))
  /\ (forall k, k ∉ map Movie.id movieList -> movies (db w') !! k = movies (db w) !! k)
  /\ (forall k, k ∉ map Movie.id tvShowList -> tvShows (db w') !! k = tvShows (db w) !! k)
  /\ (keyedById (movies (db w)) -> keyedById (movies (db w')))
  /\ (keyedById (tvShows (db w)) -> keyedById (tvShows (db w')))
  /\ selected (db w') = selected (db w).
Proof.
  cbv zeta. unfold seedDatabase. cbn [db log setCatalogs movies tvShows selected].
  repeat split.
  - intros it Hit. by apply bulkPut_lookup_in.
  - intros it Hit. by apply bulkPut_lookup_in.
  - intros Hnd it Hit. by apply bulkPut_lookup_NoDup.
  - intros Hnd it Hit. by apply bulkPut_lookup_NoDup.
  - intros k. apply bulkPut_keeps.
  - intros k. apply bulkPut_keeps.
  - intros k Hk. by apply bulkPut_lookup_notin.
  - intros k Hk. by apply bulkPut_lookup_notin.
  - apply bulkPut_keyed.
  - apply bulkPut_keyed.
Qed.

End seed_more.
End BulkFacts.

(** ** Switching between the catalogs *)

Module SessionFacts.
Import Dexie Dom Upd App Order Props.

Section session_facts.
Context `{E : Env}.

(** X11: a switch of the content type, with the search field empty, shows
    the whole chosen catalog: the movies for the value "movies", the shows
    for any other value. The genre control is rebuilt from the chosen
    catalog and is back on "All Genres", so that a genre chosen before does
    not filter the new catalog; the grid is the chosen catalog in the order
    of the sort control, and the catalog as loaded when the sort control
    holds no sort key; the store is not written. *)
Theorem content_switch_shows_catalog (toggleValue : string) (s : Session.t) :
  searchInput (page (Session.world s)) = "" ->
  let s' := Session.onContentTypeChange toggleValue s in
  let chosen :=
    if String.eqb toggleValue "movies"
    then loadedMovies (Session.loaded s) else loadedTvShows (Session.loaded s) in
  let grid := map cardItem (contentGrid (page (Session.world s'))) in
  Session.content s' = chosen
  /\ options (genreFilter (page (Session.world s')))
     = ("", "All Genres") :: map (fun genre => (genre, genre)) (genresOf chosen)
  /\ value (genreFilter (page (Session.world s'))) = ""
  /\ grid = map FuseResult.item
              (sortResults (wrapAll chosen) (value (sortOptions (page (Session.world s)))))
  /\ grid ≡ₚ chosen
  /\ (recognized (value (sortOptions (page (Session.world s)))) = false -> grid = chosen)
  /\ db (Session.world s') = db (Session.world s).
Proof.
  intros Hq. cbv zeta. unfold Session.onContentTypeChange.
  cbn [Session.content Session.world].
  set (chosen := if String.eqb toggleValue "movies"
                 then loadedMovies (Session.loaded s) else loadedTvShows (Session.loaded s)).
  set (fuse := if String.eqb toggleValue "movies"
               then movieFuse (Session.loaded s) else tvShowFuse (Session.loaded s)).
  assert (map cardItem (contentGrid (page
            (filterContent chosen fuse false (populateGenres chosen (Session.world s)))))
          = map FuseResult.item
              (sortResults (wrapAll chosen) (value (sortOptions (page (Session.world s))))))
    as Hgrid.
  { unfold filterContent. rewrite PipelineFacts.displayContent_grid.
    unfold sortedResults.
    rewrite PipelineFacts.matchedResults_no_query_no_genre; [reflexivity|exact Hq|reflexivity]. }
  split; [reflexivity|]. split; [reflexivity|]. split; [reflexivity|].
  split; [exact Hgrid|]. split; [|split; [|reflexivity]].
  - rewrite Hgrid. unfold sortResults.
    rewrite JSFacts.sort_perm. by rewrite PipelineFacts.item_wrapAll.
  - intros Hr. rewrite Hgrid. unfold sortResults.
    rewrite JSFacts.sort_unchanged; [apply PipelineFacts.item_wrapAll|].
    intros a b _ _. unfold JS.before. by rewrite PipelineFacts.sortCompare_other.
Qed.

End session_facts.

(** X11 on a sample: from the first start, with two bundled shows, to the
    shows. *)
Lemma content_switch_shows_catalog_witness :
  let s := Session.start (E := Sample.pageEnv) "Movie Picker" Sample.world0 in
  let s' := Session.onContentTypeChange (E := Sample.pageEnv) "tv" s in
  searchInput (page (Session.world s)) = ""
  /\ recognized (value (sortOptions (page (Session.world s)))) = false
  /\ loadedTvShows (Session.loaded s) = [Sample.dark; Sample.severance]
  /\ map cardItem (contentGrid (page (Session.world s'))) = loadedTvShows (Session.loaded s).
Proof.
  cbv zeta. split; [reflexivity|]. split; [reflexivity|]. split; [vm_compute; reflexivity|].
  exact (proj1 (proj2 (proj2 (proj2 (proj2 (proj2
    (content_switch_shows_catalog (E := Sample.pageEnv) "tv"
       (Session.start (E := Sample.pageEnv) "Movie Picker" Sample.world0) eq_refl))))))
    eq_refl).
Defined.

End SessionFacts.

(** ** The first variant of the filter against the last *)

Module VariantFacts.
Import Dexie Dom Upd App Order Props.

Lemma map_insert {A B : Type} (f : A -> B) (c : B -> B -> JS.number) x l :
  map f (JS.insert (fun a b => c (f a) (f b)) x l) = JS.insert c (f x) (map f l).
Proof.
  induction l as [|y l IH]; [reflexivity|].
  simpl. destruct (JS.positive (c (f x) (f y))); simpl; [by rewrite IH|reflexivity].
Qed.

Lemma map_sort {A B : Type} (f : A -> B) (c : B -> B -> JS.number) l :
  map f (JS.sort (fun a b => c (f a) (f b)) l) = JS.sort c (map f l).
Proof.
  induction l as [|x l IH]; [reflexivity|].
  cbn [JS.sort foldr map]. fold (JS.sort (fun a b => c (f a) (f b)) l).
  fold (JS.sort c (map f l)). by rewrite map_insert, IH.
Qed.

Section variants.
Context `{E : Env}.

Lemma items_sorted_by_option (results : list FuseResult.t) (sortOption : string) :
  Forall unscored results ->
  map FuseResult.item (sortResults results sortOption)
  = FirstVariant.sortResults (map FuseResult.item results) sortOption.
Proof.
  intros Hun. unfold sortResults, FirstVariant.sortResults.
  destruct (String.eqb sortOption "search") eqn:Hsearch.
  - apply String.eqb_eq in Hsearch. subst sortOption. cbn [String.eqb Ascii.eqb Bool.eqb].
    rewrite JSFacts.sort_unchanged; [reflexivity|].
    intros a b Ha _. apply PipelineFacts.before_search. unfold scoreAscending.
    rewrite Forall_forall in Hun. by rewrite (Hun a Ha).
  - unfold sortCompare. rewrite Hsearch.
    destruct (String.eqb sortOption "title");
      [apply (map_sort FuseResult.item
                (fun a b => JS.ofZ (localeCompare (Movie.title a) (Movie.title b))))|].
    destruct (String.eqb sortOption "year");
      [apply (map_sort FuseResult.item (fun a b => JS.ofZ (Movie.year b - Movie.year a)))|].
    destruct (String.eqb sortOption "rating");
      [apply (map_sort FuseResult.item (fun a b => JS.Num (Movie.rating b - Movie.rating a)))|].
    rewrite JSFacts.sort_unchanged; [reflexivity|].
    intros a b _ _. unfold JS.before. by rewrite JSFacts.positive_ofZ.
Qed.

(** X12: the first variant of the filter shows what the last one shows when
    the last is told that the run is a live search exactly when the search
    field is not empty: with a query the matches by score, without one the
    catalog by the sort control. *)
Theorem first_variant_agrees
    (movies : list Movie.t) (fuse : string -> list FuseResult.t) (p : Page) :
  FirstVariant.filterMovies movies fuse p
  = map FuseResult.item
      (sortedResults movies fuse (JS.truthy (JS.toLowerCase (searchInput p))) p).
Proof.
  unfold FirstVariant.filterMovies, sortedResults, matchedResults.
  destruct (JS.truthy (JS.toLowerCase (searchInput p))) eqn:Hq.
  - rewrite andb_false_r. reflexivity.
  - cbn [length Nat.eqb negb andb].
    rewrite PipelineFacts.item_wrapAll_from. symmetry.
    apply items_sorted_by_option.
    destruct (JS.truthy (value (genreFilter p)));
      [apply PipelineFacts.filter_Forall|];
      apply (PipelineFacts.wrapAll_unscored_from movies (fun i => i)).
Qed.

End variants.
End VariantFacts.

(** ** Sanitized titles and poster addresses *)

Module SanitizeFacts.
Import Ingest Props.

Lemma keepChars_all f s : allChars f (keepChars f s) = true.
Proof.
  induction s as [|c s IH]; [reflexivity|].
  simpl. destruct (f c) eqn:Hc; [|exact IH]. simpl. by rewrite Hc.
Qed.

Lemma keepChars_id f s : allChars f s = true -> keepChars f s = s.
Proof.
  induction s as [|c s IH]; [reflexivity|].
  simpl. intros H. apply andb_true_iff in H as [Hc Hs]. by rewrite Hc, IH.
Qed.

Lemma allChars_impl (f g : ascii -> bool) s :
  (forall c, f c = true -> g c = true) -> allChars f s = true -> allChars g s = true.
Proof.
  intros Hfg. induction s as [|c s IH]; [reflexivity|].
  simpl. intros H. apply andb_true_iff in H as [Hc Hs].
  by rewrite (Hfg c Hc), IH.
Qed.

Lemma allowed_not_separator c :
  allowedChar c = true -> Ascii.eqb c "/" || Ascii.eqb c ":" = false.
Proof. destruct c as [[] [] [] [] [] [] [] []]; vm_compute; congruence. Qed.

Lemma mapChars_id s :
  allChars allowedChar s = true ->
  mapChars (fun c => if Ascii.eqb c "/" || Ascii.eqb c ":" then "-"%char else c) s = s.
Proof.
  induction s as [|c s IH]; [reflexivity|].
  simpl. intros H. apply andb_true_iff in H as [Hc Hs].
  by rewrite (allowed_not_separator c Hc), IH.
Qed.

Lemma allowed_is_base c : allowedChar c = true -> baseLetter c = c.
Proof. destruct c as [[] [] [] [] [] [] [] []]; vm_compute; congruence. Qed.

Lemma mapChars_base_id s :
  allChars allowedChar s = true -> mapChars baseLetter s = s.
Proof.
  induction s as [|c s IH]; [reflexivity|].
  simpl. intros H. apply andb_true_iff in H as [Hc Hs].
  by rewrite (allowed_is_base c Hc), IH.
Qed.

Lemma keepChars_length f s : (String.length (keepChars f s) <= String.length s)%nat.
Proof.
  induction s as [|c s IH]; [reflexivity|]. simpl. destruct (f c); simpl; lia.
Qed.

Lemma mapChars_length f s : String.length (mapChars f s) = String.length s.
Proof. induction s as [|c s IH]; [reflexivity|]. simpl. by rewrite IH. Qed.

(** X13: a sanitized title is made of letters, digits, underscores, hyphens
    and white space only; in particular it holds no slash and no colon, so
    that the name of the image is one segment of a path; and it is never
    longer than the title. *)
Theorem sanitized_title_chars (title : string) :
  allChars allowedChar (sanitizeTitle title) = true
  /\ allChars (fun c => negb (Ascii.eqb c "/" || Ascii.eqb c ":")) (sanitizeTitle title) = true
  /\ (String.length (sanitizeTitle title) <= String.length title)%nat.
Proof.
  assert (allChars allowedChar (sanitizeTitle title) = true) as Hall
    by apply (keepChars_all allowedChar).
  split; [exact Hall|]. split.
  - apply (allChars_impl allowedChar); [|exact Hall].
    intros c Hc. by rewrite (allowed_not_separator c Hc).
  - unfold sanitizeTitle.
    etransitivity; [apply keepChars_length|]. by rewrite !mapChars_length.
Qed.

(** X14: sanitizing leaves alone a title that is already made of the
    allowed characters only, and so sanitizing twice is sanitizing once. *)
Theorem sanitize_idempotent (title : string) :
  (allChars allowedChar title = true -> sanitizeTitle title = title)
  /\ sanitizeTitle (sanitizeTitle title) = sanitizeTitle title.
Proof.
  assert (forall s, allChars allowedChar s = true -> sanitizeTitle s = s) as Hid.
  { intros s Hs. unfold sanitizeTitle. rewrite mapChars_base_id by exact Hs.
    rewrite mapChars_id by exact Hs.
    by apply (keepChars_id allowedChar). }
  split; [apply Hid|]. apply Hid. apply (keepChars_all allowedChar).
Qed.

(** Accented letters lose their accent and stay; a no-break space stays. *)
Lemma accents_are_removed :
  sanitizeTitle Sample.leonTitle = "Leon- The Professional"
  /\ sanitizeTitle Sample.amelieTitle = "Amelie"
  /\ sanitizeTitle ("a" +:+ String (ascii_of_nat 160) "b") = "a" +:+ String (ascii_of_nat 160) "b"
  /\ imageNameOf Sample.leonNfo = "Leon- The Professional (1994).jpg".
Proof. repeat split; vm_compute; reflexivity. Qed.

Lemma substring_0_0 s : String.substring 0 0 s = "".
Proof. by destruct s. Qed.

Lemma replaceFirst_unfold pattern replacement s :
  replaceFirst pattern replacement s
  = if String.prefix pattern s then
      replacement +:+ String.substring (String.length pattern)
                        (String.length s - String.length pattern) s
    else match s with
         | EmptyString => EmptyString
         | String c s' => String c (replaceFirst pattern replacement s')
         end.
Proof. by destruct s. Qed.

(** [replaceFirst] against the library's search for the first occurrence. *)
Lemma replaceFirst_index pattern replacement s :
  replaceFirst pattern replacement s
  = match String.index 0 pattern s with
    | Some m =>
        String.substring 0 m s +:+ replacement
        +:+ String.substring (m + String.length pattern)
              (String.length s - (m + String.length pattern)) s
    | None => s
    end.
Proof.
  induction s as [|c s IH].
  - destruct pattern as [|a pattern]; reflexivity.
  - rewrite replaceFirst_unfold. cbn [String.index].
    destruct (String.prefix pattern (String c s)) eqn:Hp.
    + by rewrite substring_0_0.
    + rewrite IH. destruct (String.index 0 pattern s) as [m|]; reflexivity.
Qed.

(** X15: [replaceImageUrl] rewrites the first "/original/" of an address
    and nothing else: what stands before it and after it is kept, later
    occurrences included; an address without "/original/" is returned as it
    is. *)
Theorem replaceImageUrl_first_occurrence (url : string) :
  replaceImageUrl url
  = match String.index 0 "/original/" url with
    | Some m =>
        String.substring 0 m url +:+ "/w220_and_h330_face/"
        +:+ String.substring (m + 10) (String.length url - (m + 10)) url
    | None => url
    end.
Proof. apply replaceFirst_index. Qed.

End SanitizeFacts.

(** ** The disk after a run of the script *)

Module DiskFacts.
Import Ingest Props.

Lemma imagePathOf_inj dirname n m :
  imagePathOf dirname n = imagePathOf dirname m -> imageNameOf n = imageNameOf m.
Proof.
  unfold imagePathOf, pathJoin. cbn [String.concat]. intros H.
  apply IngestFacts.append_inv_head in H.
  apply (IngestFacts.append_inv_head "/") in H.
  apply (IngestFacts.append_inv_head "public") in H.
  apply (IngestFacts.append_inv_head "/") in H.
  apply (IngestFacts.append_inv_head "images") in H.
  apply (IngestFacts.append_inv_head "/") in H.
  apply (IngestFacts.append_inv_head "movies") in H.
  by apply (IngestFacts.append_inv_head "/") in H.
Qed.

Section disk_facts.
Context (dirname : string) (fetch : string -> Fetched).

Local Abbreviation after := (diskAfter dirname fetch).

Lemma processOne_snd acc n : snd (processOne dirname fetch acc n) = after n (snd acc).
Proof. reflexivity. Qed.

Lemma processOne_fst acc n : fst (processOne dirname fetch acc n) = fst acc ++ [entryOf n].
Proof. reflexivity. Qed.

Lemma after_ok n d :
  failureOf fetch n = None ->
  exists body, files (after n d) = <[imagePathOf dirname n := body]> (files d)
               /\ stderr (after n d) = stderr d.
Proof.
  unfold failureOf, diskAfter, downloadImage.
  destruct (fetch (replaceImageUrl (nfoThumb n))) as [message|contentType body]; [discriminate|].
  destruct (refused contentType); [discriminate|]. intros _. by exists body.
Qed.

Lemma after_failed n d message :
  failureOf fetch n = Some message ->
  exists line, files (after n d) = <[logFilePath dirname := line]> (files d)
               /\ stderr (after n d) = stderr d ++ [errorLine n message].
Proof.
  unfold failureOf, diskAfter, downloadImage.
  destruct (fetch (replaceImageUrl (nfoThumb n))) as [message'|contentType body].
  - intros [= <-]. eexists. split; reflexivity.
  - destruct (refused contentType); [|discriminate].
    intros [= <-]. eexists. split; reflexivity.
Qed.

Lemma after_keeps n d path : is_Some (files d !! path) -> is_Some (files (after n d) !! path).
Proof.
  intros Hp. destruct (failureOf fetch n) as [message|] eqn:Hf.
  - destruct (after_failed n d message Hf) as (line & -> & _).
    destruct (decide (path = logFilePath dirname)) as [->|Hne].
    + rewrite lookup_insert_eq. by eexists.
    + by rewrite lookup_insert_ne.
  - destruct (after_ok n d Hf) as (body & -> & _).
    destruct (decide (path = imagePathOf dirname n)) as [->|Hne].
    + rewrite lookup_insert_eq. by eexists.
    + by rewrite lookup_insert_ne.
Qed.

Lemma run_keeps nfos : forall acc path,
  is_Some (files (snd acc) !! path) ->
  is_Some (files (snd (foldl (processOne dirname fetch) acc nfos)) !! path).
Proof.
  induction nfos as [|n nfos IH]; intros acc path Hp; [exact Hp|].
  cbn [foldl]. apply IH. rewrite processOne_snd. by apply after_keeps.
Qed.

Lemma run_writes nfos : forall acc n,
  n ∈ nfos -> failureOf fetch n = None ->
  is_Some (files (snd (foldl (processOne dirname fetch) acc nfos)) !! imagePathOf dirname n).
Proof.
  induction nfos as [|m nfos IH]; intros acc n Hn Hok; [by apply elem_of_nil in Hn|].
  cbn [foldl]. apply elem_of_cons in Hn as [->|Hn]; [|by apply IH].
  apply run_keeps. rewrite processOne_snd.
  destruct (after_ok m (snd acc) Hok) as (body & -> & _).
  rewrite lookup_insert_eq. by eexists.
Qed.

Lemma run_leaves_missing nfos : forall acc n,
  files (snd acc) !! imagePathOf dirname n = None ->
  (forall m, m ∈ nfos -> imageNameOf m = imageNameOf n -> failureOf fetch m <> None) ->
  files (snd (foldl (processOne dirname fetch) acc nfos)) !! imagePathOf dirname n = None.
Proof.
  induction nfos as [|m nfos IH]; intros acc n Hnone Hall; [exact Hnone|].
  cbn [foldl]. apply IH; [|intros m' Hm'; apply Hall; by right].
  rewrite processOne_snd.
  destruct (failureOf fetch m) as [message|] eqn:Hf.
  - destruct (after_failed m (snd acc) message Hf) as (line & -> & _).
    rewrite lookup_insert_ne; [exact Hnone|].
    intros Heq. symmetry in Heq. revert Heq. apply IngestFacts.imagePath_not_log.
  - destruct (after_ok m (snd acc) Hf) as (body & -> & _).
    rewrite lookup_insert_ne; [exact Hnone|].
    intros Heq. apply imagePathOf_inj in Heq.
    apply (Hall m); [by left|exact Heq|exact Hf].
Qed.

Lemma run_stderr nfos : forall acc,
  stderr (snd (foldl (processOne dirname fetch) acc nfos))
  = stderr (snd acc) ++ errorLines fetch nfos.
Proof.
  induction nfos as [|n nfos IH]; intros acc; [by rewrite app_nil_r|].
  cbn [foldl errorLines]. rewrite IH, processOne_snd.
  destruct (failureOf fetch n) as [message|] eqn:Hf.
  - destruct (after_failed n (snd acc) message Hf) as (line & _ & ->).
    by rewrite <- app_assoc.
  - by destruct (after_ok n (snd acc) Hf) as (body & _ & ->).
Qed.

Lemma entry_emitted dir d n :
  n ∈ nfosOf dir -> entryOf n ∈ fst (processNfoFiles dirname fetch dir d).
Proof.
  intros Hn.
  unfold processNfoFiles.
  destruct (IngestFacts.run_from dirname fetch
              (map snd (List.filter (fun f => endsWith (fst f) ".nfo") dir)) ([], d)) as [Hrun _].
  rewrite Hrun. apply list_elem_of_fmap. by exists n.
Qed.

(** X16: after a run, the poster of every [.nfo] file whose download went
    through is on the disk at the path the script gives it, and the catalog
    holds the entry of the file. *)
Theorem posters_exist (dir : list (string * Nfo)) (d : Disk) (n : Nfo) :
  n ∈ nfosOf dir -> failureOf fetch n = None ->
  let run := processNfoFiles dirname fetch dir d in
  entryOf n ∈ fst run /\ is_Some (files (snd run) !! imagePathOf dirname n).
Proof.
  intros Hn Hok. cbv zeta. split; [by apply entry_emitted|].
  unfold processNfoFiles. by apply run_writes.
Qed.

(** X17: the catalog can point to a poster that does not exist. When the
    poster of a file is not on the disk before the run, and the download
    fails for every file of the run with that image name, the run still
    emits the entry of the file, with its image set, while no file stands at
    the path of the poster. *)
Theorem missing_poster (dir : list (string * Nfo)) (d : Disk) (n : Nfo) :
  n ∈ nfosOf dir ->
  files d !! imagePathOf dirname n = None ->
  (forall m, m ∈ nfosOf dir -> imageNameOf m = imageNameOf n -> failureOf fetch m <> None) ->
  let run := processNfoFiles dirname fetch dir d in
  entryOf n ∈ fst run
  /\ Movie.image (entryOf n) = Some ("/images/movies/" +:+ imageNameOf n)
  /\ files (snd run) !! imagePathOf dirname n = None.
Proof.
  intros Hn Hnone Hall. cbv zeta. split; [by apply entry_emitted|]. split; [reflexivity|].
  unfold processNfoFiles. by apply run_leaves_missing.
Qed.

(** X18: the error stream gets one line
    ["ERROR: <sanitized title> (<year>) - <message>"] for each file whose
    download failed, in the order of the files, and nothing else. *)
Theorem errors_reported (dir : list (string * Nfo)) (d : Disk) :
  stderr (snd (processNfoFiles dirname fetch dir d))
  = stderr d ++ errorLines fetch (nfosOf dir).
Proof. unfold processNfoFiles. apply run_stderr. Qed.

End disk_facts.

Lemma sample_dir_nfos :
  nfosOf [("a.nfo", Sample.missionNfo); ("notes.txt", Sample.duneNfo); ("c.nfo", Sample.duneNfo)]
  = [Sample.missionNfo; Sample.duneNfo].
Proof. reflexivity. Qed.

Lemma sample_dune_in :
  Sample.duneNfo
  ∈ nfosOf [("a.nfo", Sample.missionNfo); ("notes.txt", Sample.duneNfo); ("c.nfo", Sample.duneNfo)].
Proof. rewrite sample_dir_nfos. right. left. Qed.

Lemma sample_mission_in :
  Sample.missionNfo
  ∈ nfosOf [("a.nfo", Sample.missionNfo); ("notes.txt", Sample.duneNfo); ("c.nfo", Sample.duneNfo)].
Proof. rewrite sample_dir_nfos. left. Qed.

Lemma sample_mission_fails m :
  m ∈ nfosOf [("a.nfo", Sample.missionNfo); ("notes.txt", Sample.duneNfo); ("c.nfo", Sample.duneNfo)] ->
  imageNameOf m = imageNameOf Sample.missionNfo ->
  failureOf Sample.duneHost m <> None.
Proof.
  rewrite sample_dir_nfos. intros Hm Hname.
  apply elem_of_cons in Hm as [->|Hm]; [vm_compute; discriminate|].
  apply list_elem_of_singleton in Hm. subst m. vm_compute in Hname. discriminate.
Qed.

(** X16 on a sample: the poster of Dune from a host that serves it. *)
Lemma posters_exist_witness :
  let dir := [("a.nfo", Sample.missionNfo); ("notes.txt", Sample.duneNfo); ("c.nfo", Sample.duneNfo)] in
  Sample.duneNfo ∈ nfosOf dir
  /\ failureOf Sample.duneHost Sample.duneNfo = None
  /\ is_Some (files (snd (processNfoFiles "/srv" Sample.duneHost dir emptyDisk))
                !! imagePathOf "/srv" Sample.duneNfo).
Proof.
  cbv zeta. split; [exact sample_dune_in|]. split; [reflexivity|].
  exact (proj2 (posters_exist "/srv" Sample.duneHost _ emptyDisk Sample.duneNfo
                  sample_dune_in eq_refl)).
Defined.

(** X17 on a sample: the poster of Mission: Impossible, which the host does
    not have. *)
Lemma missing_poster_witness :
  let dir := [("a.nfo", Sample.missionNfo); ("notes.txt", Sample.duneNfo); ("c.nfo", Sample.duneNfo)] in
  Sample.missionNfo ∈ nfosOf dir
  /\ files emptyDisk !! imagePathOf "/srv" Sample.missionNfo = None
  /\ (forall m, m ∈ nfosOf dir -> imageNameOf m = imageNameOf Sample.missionNfo ->
        failureOf Sample.duneHost m <> None)
  /\ files (snd (processNfoFiles "/srv" Sample.duneHost dir emptyDisk))
       !! imagePathOf "/srv" Sample.missionNfo = None.
Proof.
  cbv zeta. split; [exact sample_mission_in|]. split; [apply lookup_empty|].
  split; [exact sample_mission_fails|].
  exact (proj2 (proj2 (missing_poster "/srv" Sample.duneHost _ emptyDisk Sample.missionNfo
                         sample_mission_in (lookup_empty _) sample_mission_fails))).
Defined.

End DiskFacts.

(** ** The grid at start-up *)

Module StartFacts.
Import Dexie Dom Upd App Order Props.

Lemma keyed_ids (t : gmap string Movie.t) :
  keyedById t -> map Movie.id ((map_to_list t).*2) = (map_to_list t).*1.
Proof.
  intros Hk.
  assert (Forall (fun kv => Movie.id (snd kv) = fst kv) (map_to_list t)) as Hall.
  { apply Forall_forall. intros [k v] Hkv. apply elem_of_map_to_list in Hkv. by apply Hk. }
  revert Hall. generalize (map_to_list t). intros l Hall.
  induction Hall as [|kv l Hkv _ IH]; [reflexivity|].
  rewrite !fmap_cons. cbn [map]. by rewrite Hkv, <- IH.
Qed.

Section start_facts.
Context `{E : Env}.

(** X19: at start-up, when the rows of the movies table sit under their
    ids, the grid that [fetchContent] draws shows every row once: no two
    cards have one id, the cards carry the marks of the selection store, and
    the shows are loaded beside the movies, every row once, ordered by
    title. *)
Theorem startup_grid_distinct (w : World) :
  collationAsym ->
  keyedById (movies (db w)) ->
  let fetched := fetchContent w in
  NoDup (gridIds (snd fetched))
  /\ marksAgree (snd fetched)
  /\ map cardItem (contentGrid (page (snd fetched))) = loadedMovies (fst fetched)
  /\ loadedTvShows (fst fetched) ≡ₚ (map_to_list (tvShows (db w))).*2
  /\ Sorted alphabetical (loadedTvShows (fst fetched)).
Proof.
  intros Hc Hk. cbv zeta.
  assert (map cardItem (contentGrid (page (snd (fetchContent w))))
          = loadedMovies (fst (fetchContent w))) as Hgrid
    by apply PipelineFacts.displayContent_grid.
  split; [|split; [|split; [exact Hgrid|split]]].
  - unfold gridIds.
    rewrite <- (map_map cardItem Movie.id), Hgrid, PipelineFacts.fetchContent_movies.
    rewrite JSFacts.sort_perm, PipelineFacts.toArray_perm, keyed_ids by exact Hk.
    apply NoDup_fst_map_to_list.
  - apply (MarkFacts.marksAgree_displayContent _ (populateGenres _ w)).
  - unfold fetchContent. cbn [fst loadedTvShows].
    by rewrite JSFacts.sort_perm, PipelineFacts.toArray_perm.
  - unfold fetchContent. cbn [fst loadedTvShows].
    apply (PipelineFacts.Sorted_mono (JS.before byTitle)).
    + intros a b. unfold JS.before, byTitle, alphabetical.
      rewrite JSFacts.positive_ofZ, Z.ltb_ge. lia.
    + apply JSFacts.sort_Sorted. intros a b. unfold byTitle.
      rewrite !JSFacts.positive_ofZ, Z.ltb_lt, Z.ltb_ge. apply Hc.
Qed.

End start_facts.

Lemma sample_seeded_keyed :
  keyedById (movies (db (initializeDatabase (E := Sample.env) Sample.world0))).
Proof.
  apply BulkFacts.bulkPut_keyed. intros k v Hkv.
  change ((∅ : gmap string Movie.t) !! k = Some v) in Hkv.
  by rewrite lookup_empty in Hkv.
Qed.

(** X19 on a sample: the first start with three bundled films. *)
Lemma startup_grid_distinct_witness :
  let w := initializeDatabase (E := Sample.env) Sample.world0 in
  collationAsym (E := Sample.env)
  /\ keyedById (movies (db w))
  /\ NoDup (gridIds (snd (fetchContent (E := Sample.env) w))).
Proof.
  cbv zeta. split; [exact PipelineFacts.plainCompare_asym|]. split; [exact sample_seeded_keyed|].
  exact (proj1 (startup_grid_distinct (E := Sample.env) _
                  PipelineFacts.plainCompare_asym sample_seeded_keyed)).
Defined.

End StartFacts.
